(** * SceneManager: texture registry, material registry and draw-state composer

    A shallow embedding of [SceneManager.cpp].  The manager object is a
    record; every method is a function in a small state-and-fault monad that
    also collects, in order, the calls the method makes to its external
    collaborators (the shader manager, the mesh library, OpenGL).

    Conventions of the embedding:
    - C++ [int] values that the code only counts from zero ([m_loadedTextures],
      loop indices) are [Z];
    - texture handles are [GLuint], 32 bits without sign: they are kept as
      [Z], and the two conversions the code makes, of [-1] to a handle and
      of a handle to the [int] that [FindTextureID] returns, wrap around;
    - single-precision values stand as real numbers: the registries only
      store and copy them.  Rounding is not modelled, so nothing below is
      stated about the numeric value of a computed matrix;
    - behaviour that C++ leaves undefined (a store past the end of
      [m_textureIDs], a call through a null [m_pShaderManager]) is a [Fault];
    - an [OBJECT_MATERIAL] local without an initialiser holds whatever the
      world supplies ([indeterminate]); it may be anything, and differ from
      one invocation to the next;
    - console output ([std::cout]) is not part of the collected trace. *)

From Stdlib Require Import ZArith List String Bool Lia.
From Stdlib Require Import Reals Lra.
Import ListNotations.

Local Open Scope string_scope.
Local Open Scope list_scope.
Local Open Scope Z_scope.

(** ** Integers *)

(** The value of an integer converted to [GLuint] (32 bits, no sign). *)
Definition to_GLuint (z : Z) : Z := z mod 2 ^ 32.

(** The value of an integer converted to [int] (32 bits, two's
    complement). *)
Definition to_int (z : Z) : Z := (z + 2 ^ 31) mod 2 ^ 32 - 2 ^ 31.

(** ** Numbers, vectors and matrices (GLM) *)

Definition float := R.

Inductive vec2 := Vec2 (x y : float).
Inductive vec3 := Vec3 (x y z : float).
Inductive vec4 := Vec4 (x y z w : float).
Arguments Vec2 (x y)%_R_scope.
Arguments Vec3 (x y z)%_R_scope.
Arguments Vec4 (x y z w)%_R_scope.

(** [glm::mat4] is column-major: four column vectors. *)
Inductive mat4 := Mat4 (c0 c1 c2 c3 : vec4).

Module glm.
Local Open Scope R_scope.

Definition v4_scale (v : vec4) (k : float) : vec4 :=
  let 'Vec4 x y z w := v in Vec4 (x * k) (y * k) (z * k) (w * k).

Definition v4_add (a b : vec4) : vec4 :=
  let 'Vec4 ax ay az aw := a in
  let 'Vec4 bx by' bz bw := b in
  Vec4 (ax + bx) (ay + by') (az + bz) (aw + bw).

(** [mat4(1.0f)] *)
Definition identity : mat4 :=
  Mat4 (Vec4 1 0 0 0) (Vec4 0 1 0 0) (Vec4 0 0 1 0) (Vec4 0 0 0 1).

(** [operator*(mat4, mat4)]: column [i] of the product is the left factor
    applied to column [i] of the right factor,
    [A0 * B_i[0] + A1 * B_i[1] + A2 * B_i[2] + A3 * B_i[3]]. *)
Definition mul_col (a : mat4) (b : vec4) : vec4 :=
  let 'Mat4 a0 a1 a2 a3 := a in
  let 'Vec4 x y z w := b in
  v4_add (v4_add (v4_add (v4_scale a0 x) (v4_scale a1 y)) (v4_scale a2 z))
         (v4_scale a3 w).

Definition mul (a b : mat4) : mat4 :=
  let 'Mat4 b0 b1 b2 b3 := b in
  Mat4 (mul_col a b0) (mul_col a b1) (mul_col a b2) (mul_col a b3).

(** [glm::radians]: GLM multiplies the degrees by the decimal constant
    0.01745329251994329576923690768489, its rendering of pi/180; here the
    factor is pi/180 itself. *)
Definition radians (degrees : float) : float := degrees * (PI / 180).

(** [glm::normalize]: [v * inversesqrt(dot(v, v))]. *)
Definition normalize (v : vec3) : vec3 :=
  let 'Vec3 x y z := v in
  let k := / sqrt (x * x + y * y + z * z) in
  Vec3 (x * k) (y * k) (z * k).

(** [glm::scale(v)] of [gtx/transform.hpp]: [scale(mat4(1), v)], which
    multiplies the first three columns of the identity by [v]. *)
Definition scale (v : vec3) : mat4 :=
  let 'Mat4 m0 m1 m2 m3 := identity in
  let 'Vec3 x y z := v in
  Mat4 (v4_scale m0 x) (v4_scale m1 y) (v4_scale m2 z) m3.

(** [glm::translate(v)]: [translate(mat4(1), v)], which replaces the last
    column by [m0 * v.x + m1 * v.y + m2 * v.z + m3]. *)
Definition translate (v : vec3) : mat4 :=
  let 'Mat4 m0 m1 m2 m3 := identity in
  let 'Vec3 x y z := v in
  Mat4 m0 m1 m2
       (v4_add (v4_add (v4_add (v4_scale m0 x) (v4_scale m1 y)) (v4_scale m2 z)) m3).

(** [glm::rotate(angle, axis)]: [rotate(mat4(1), angle, axis)], the
    axis-angle matrix GLM builds from the normalised axis. *)
Definition rotate (angle : float) (v : vec3) : mat4 :=
  let c := cos angle in
  let s := sin angle in
  let 'Vec3 ax ay az := normalize v in
  let tx := (1 - c) * ax in
  let ty := (1 - c) * ay in
  let tz := (1 - c) * az in
  let r00 := c + tx * ax in
  let r01 := tx * ay + s * az in
  let r02 := tx * az - s * ay in
  let r10 := ty * ax - s * az in
  let r11 := c + ty * ay in
  let r12 := ty * az + s * ax in
  let r20 := tz * ax + s * ay in
  let r21 := tz * ay - s * ax in
  let r22 := c + tz * az in
  let 'Mat4 m0 m1 m2 m3 := identity in
  Mat4 (v4_add (v4_add (v4_scale m0 r00) (v4_scale m1 r01)) (v4_scale m2 r02))
       (v4_add (v4_add (v4_scale m0 r10) (v4_scale m1 r11)) (v4_scale m2 r12))
       (v4_add (v4_add (v4_scale m0 r20) (v4_scale m1 r21)) (v4_scale m2 r22))
       m3.
End glm.

(** ** Data held by the manager *)

Module Texture.
(** [TEXTURE_INFO]: one slot of the texture registry.  [ID] is a [GLuint]:
    its address is what [glGenTextures] is given. *)
Record TEXTURE_INFO := Build { tag : string; ID : Z }.
End Texture.

Module Material.
(** [OBJECT_MATERIAL]: the lighting coefficients registered under a tag. *)
Record OBJECT_MATERIAL := Build {
  ambientStrength : float;
  ambientColor : vec3;
  diffuseColor : vec3;
  specularColor : vec3;
  shininess : float;
  tag : string
}.
Arguments Build (ambientStrength)%_R_scope ambientColor diffuseColor
  specularColor (shininess)%_R_scope tag.
End Material.

Import Texture(TEXTURE_INFO).
Import Material(OBJECT_MATERIAL).

(** A [ShaderManager*]: null, or the address of a live shader manager. *)
Inductive pointer := NULL | Object (address : positive).

(** The members of [SceneManager] that the methods below use.
    [m_textureIDs] is the fixed array of texture slots (sixteen of them, the
    bound of the constructor's loop), [m_objectMaterials]
    the growable [std::vector] of materials.  [m_basicMeshes] is set to a
    fresh [ShapeMeshes] by the constructor and never null while the object
    lives, so calls through it appear directly as mesh calls. *)
Record SceneManager := {
  m_pShaderManager : pointer;
  m_textureIDs : list TEXTURE_INFO;
  m_loadedTextures : Z;
  m_objectMaterials : list OBJECT_MATERIAL
}.

(** ** The external collaborators *)

(** What [stbi_load] reports about a decoded image. *)
Record Image := { width : Z; height : Z; colorChannels : Z }.

(** The part of the outside world the methods read:
    - [stbi_load]: the image decoder, by file name ([None] is a null
      [const char*]); it answers [None] for the null pixel pointer;
    - [gl_fresh]: the texture name, a [GLuint], that the next
      [glGenTextures] hands out;
    - [indeterminate]: what an [OBJECT_MATERIAL] local holds when it is
      declared without an initialiser. *)
Record World := {
  stbi_load : option string -> option Image;
  gl_fresh : Z;
  indeterminate : OBJECT_MATERIAL
}.

Inductive GLenum :=
| GL_TEXTURE_2D | GL_TEXTURE_WRAP_S | GL_TEXTURE_WRAP_T
| GL_TEXTURE_MIN_FILTER | GL_TEXTURE_MAG_FILTER
| GL_REPEAT | GL_LINEAR | GL_RGB8 | GL_RGB | GL_RGBA8 | GL_RGBA
| GL_UNSIGNED_BYTE.

(** One call made to a collaborator, with the arguments it was given. *)
Inductive Call :=
(* stb_image *)
| stbi_set_flip_vertically_on_load (flag : bool)
| stbi_image_free
(* OpenGL; [glGenTextures] carries the name it produced *)
| glGenTextures (n : Z) (produced : Z)
| glDeleteTextures (n : Z) (name : Z)
| glBindTexture (target : GLenum) (name : Z)
| glTexParameteri (target pname param : GLenum)
| glTexImage2D (target : GLenum) (level : Z) (internalformat : GLenum)
               (w h border : Z) (format type : GLenum)
| glGenerateMipmap (target : GLenum)
| glActiveTexture (unit_index : Z)
(* ShaderManager *)
| setMat4Value (name : string) (value : mat4)
| setIntValue (name : string) (value : Z)
| setBoolValue (name : string) (value : bool)
| setFloatValue (name : string) (value : float)
| setVec2Value (name : string) (value : vec2)
| setVec3Value (name : string) (value : vec3)
| setVec4Value (name : string) (value : vec4)
| setSampler2DValue (name : string) (slot : Z)
(* ShapeMeshes *)
| LoadBoxMesh | LoadCylinderMesh | LoadPlaneMesh
| LoadTaperedCylinderMesh | LoadConeMesh
| DrawPlaneMesh | DrawBoxMesh | DrawCylinderMesh
| DrawTaperedCylinderMesh | DrawConeMesh.

(** ** The method monad *)

Record State := { this : SceneManager; world : World }.

Inductive Fault := NullDereference | OutOfBounds.

(** A method either returns a value, the state it leaves and the calls it
    made, in order, or runs into undefined behaviour. *)
Inductive Outcome (A : Type) :=
| Ok (a : A) (s : State) (calls : list Call)
| Undefined (f : Fault).
Arguments Ok {A} a s calls.
Arguments Undefined {A} f.

Definition M (A : Type) := State -> Outcome A.

Definition ret {A} (a : A) : M A := fun s => Ok a s [].

Definition bind {A B} (m : M A) (k : A -> M B) : M B := fun s =>
  match m s with
  | Ok a s1 calls1 =>
      match k a s1 with
      | Ok b s2 calls2 => Ok b s2 (calls1 ++ calls2)
      | Undefined f => Undefined f
      end
  | Undefined f => Undefined f
  end.

Declare Scope method_scope.
Delimit Scope method_scope with method.
Notation "x <- m ;; k" := (bind m (fun x => k))
  (at level 61, m at next level, right associativity) : method_scope.
Notation "m ;; k" := (bind m (fun _ => k))
  (at level 61, right associativity) : method_scope.
Local Open Scope method_scope.

Definition get_this : M SceneManager := fun s => Ok (this s) s [].
Definition put_this (t : SceneManager) : M unit := fun s =>
  Ok tt {| this := t; world := world s |} [].
Definition undefined {A} (f : Fault) : M A := fun _ => Undefined f.

(** A call to a free function of a library. *)
Definition call (c : Call) : M unit := fun s => Ok tt s [c].

(** A call [m_pShaderManager->...]: undefined through a null pointer. *)
Definition via_shader (c : Call) : M unit :=
  t <- get_this ;;
  match m_pShaderManager t with
  | NULL => undefined NullDereference
  | Object _ => call c
  end.

(** [glGenTextures(1, &name)]: GL hands out its next unused name. *)
Definition gen_texture : M Z := fun s =>
  let name := gl_fresh (world s) in
  Ok name
     {| this := this s;
        world := {| stbi_load := stbi_load (world s);
                    gl_fresh := name + 1;
                    indeterminate := indeterminate (world s) |} |}
     [glGenTextures 1 name].

(** ** Arrays *)

Fixpoint list_set {A} (l : list A) (n : nat) (x : A) : list A :=
  match l, n with
  | [], _ => []
  | _ :: t, O => x :: t
  | h :: t, S k => h :: list_set t k x
  end.

Definition in_bounds {A} (a : list A) (i : Z) : bool :=
  (0 <=? i) && (i <? Z.of_nat (List.length a)).

(** [m_textureIDs[index]] as an rvalue. *)
Definition load_slot (index : Z) : M TEXTURE_INFO :=
  t <- get_this ;;
  match (if in_bounds (m_textureIDs t) index
         then nth_error (m_textureIDs t) (Z.to_nat index) else None) with
  | Some slot => ret slot
  | None => undefined OutOfBounds
  end.

(** [m_textureIDs[index] = slot]; past the end of the array it is undefined. *)
Definition store_slot (index : Z) (slot : TEXTURE_INFO) : M unit :=
  t <- get_this ;;
  if in_bounds (m_textureIDs t) index then
    put_this {| m_pShaderManager := m_pShaderManager t;
                m_textureIDs := list_set (m_textureIDs t) (Z.to_nat index) slot;
                m_loadedTextures := m_loadedTextures t;
                m_objectMaterials := m_objectMaterials t |}
  else undefined OutOfBounds.

Definition set_loadedTextures (n : Z) : M unit :=
  t <- get_this ;;
  put_this {| m_pShaderManager := m_pShaderManager t;
              m_textureIDs := m_textureIDs t;
              m_loadedTextures := n;
              m_objectMaterials := m_objectMaterials t |}.

(** [for (int i = first; i < first + count; i++) body(i)] *)
Fixpoint for_loop (count : nat) (i : Z) (body : Z -> M unit) : M unit :=
  match count with
  | O => ret tt
  | S k => body i ;; for_loop k (i + 1) body
  end.

(** ** Methods of [SceneManager] *)

Definition g_ModelName := "model".
Definition g_ColorValueName := "objectColor".
Definition g_TextureValueName := "objectTexture".
Definition g_UseTextureName := "bUseTexture".
Definition g_UseLightingName := "bUseLighting".

(** The constructor: sixteen slots, each with tag ["/0"] and the ID that
    the assignment of [-1] to a [GLuint] gives (4294967295), and no texture
    loaded. *)
Definition SceneManager_new (pShaderManager : pointer) : SceneManager :=
  {| m_pShaderManager := pShaderManager;
     m_textureIDs := map (fun _ => Texture.Build "/0" (to_GLuint (-1))) (seq 0 16);
     m_loadedTextures := 0;
     m_objectMaterials := [] |}.

Definition is_nonnull {A} (p : option A) : bool :=
  match p with Some _ => true | None => false end.

(** The statements of [CreateGLTexture] after the upload: mipmaps, release
    of the pixel buffer, and registration in slot [m_loadedTextures]. *)
Definition CreateGLTexture_register (textureID : Z) (tag : string) : M bool :=
  call (glGenerateMipmap GL_TEXTURE_2D) ;;
  call stbi_image_free ;;
  call (glBindTexture GL_TEXTURE_2D 0) ;;
  (* m_textureIDs[m_loadedTextures].ID = textureID; *)
  t <- get_this ;;
  slot <- load_slot (m_loadedTextures t) ;;
  store_slot (m_loadedTextures t) (Texture.Build (Texture.tag slot) textureID) ;;
  (* m_textureIDs[m_loadedTextures].tag = tag; *)
  t <- get_this ;;
  slot <- load_slot (m_loadedTextures t) ;;
  store_slot (m_loadedTextures t) (Texture.Build tag (Texture.ID slot)) ;;
  (* m_loadedTextures++; *)
  t <- get_this ;;
  set_loadedTextures (m_loadedTextures t + 1) ;;
  ret true.

Definition CreateGLTexture (filename : option string) (tag : string) : M bool :=
  call (stbi_set_flip_vertically_on_load true) ;;
  image <- (fun s => Ok (stbi_load (world s) filename) s []) ;;
  match image with
  | Some img =>
      textureID <- gen_texture ;;
      call (glBindTexture GL_TEXTURE_2D textureID) ;;
      call (glTexParameteri GL_TEXTURE_2D GL_TEXTURE_WRAP_S GL_REPEAT) ;;
      call (glTexParameteri GL_TEXTURE_2D GL_TEXTURE_WRAP_T GL_REPEAT) ;;
      call (glTexParameteri GL_TEXTURE_2D GL_TEXTURE_MIN_FILTER GL_LINEAR) ;;
      call (glTexParameteri GL_TEXTURE_2D GL_TEXTURE_MAG_FILTER GL_LINEAR) ;;
      if (colorChannels img =? 3) && is_nonnull filename then
        call (glTexImage2D GL_TEXTURE_2D 0 GL_RGB8 (width img) (height img) 0
                           GL_RGB GL_UNSIGNED_BYTE) ;;
        CreateGLTexture_register textureID tag
      else if colorChannels img =? 4 then
        call (glTexImage2D GL_TEXTURE_2D 0 GL_RGBA8 (width img) (height img) 0
                           GL_RGBA GL_UNSIGNED_BYTE) ;;
        CreateGLTexture_register textureID tag
      else
        ret false
  | None => ret false
  end.

(** [GL_TEXTURE0 + i] is recorded as the unit index [i]. *)
Definition BindGLTextures : M unit :=
  t <- get_this ;;
  for_loop (Z.to_nat (m_loadedTextures t)) 0 (fun i =>
    call (glActiveTexture i) ;;
    slot <- load_slot i ;;
    call (glBindTexture GL_TEXTURE_2D (Texture.ID slot))).

(** Each iteration is [glGenTextures(1, &m_textureIDs[i].ID)]: GL writes a
    newly generated name into the slot. *)
Definition DestroyGLTextures : M unit :=
  t <- get_this ;;
  for_loop (Z.to_nat (m_loadedTextures t)) 0 (fun i =>
    slot <- load_slot i ;;
    name <- gen_texture ;;
    store_slot i (Texture.Build (Texture.tag slot) name)).

(** The loop of [FindTextureID], unrolled on the number of slots still to
    visit, [m_loadedTextures - index].  A match assigns the slot's ID, a
    [GLuint], to the [int] [textureID] and sets [bFound]; the loop condition
    fails at once and [textureID] is returned.  When no slot is left
    [textureID] still holds [-1]. *)
Fixpoint FindTextureID_while (remaining : nat) (tag : string) (index : Z) : M Z :=
  match remaining with
  | O => ret (-1)
  | S k =>
      slot <- load_slot index ;;
      if (Texture.tag slot =? tag)%string then ret (to_int (Texture.ID slot))
      else FindTextureID_while k tag (index + 1)
  end.

Definition FindTextureID (tag : string) : M Z :=
  t <- get_this ;;
  FindTextureID_while (Z.to_nat (m_loadedTextures t - 0)) tag 0.

(** The loop of [FindTextureSlot], unrolled the same way; a match returns
    [textureSlot = index]. *)
Fixpoint FindTextureSlot_while (remaining : nat) (tag : string) (index : Z) : M Z :=
  match remaining with
  | O => ret (-1)
  | S k =>
      slot <- load_slot index ;;
      if (Texture.tag slot =? tag)%string then ret index
      else FindTextureSlot_while k tag (index + 1)
  end.

Definition FindTextureSlot (tag : string) : M Z :=
  t <- get_this ;;
  FindTextureSlot_while (Z.to_nat (m_loadedTextures t - 0)) tag 0.

(** The loop of [FindMaterial] over the materials from [index] on.  A match
    copies the five coefficients into the caller's [material] (its tag is
    left alone) and sets [bFound], which ends the loop; the pair returned is
    the final [(bFound, material)]. *)
Fixpoint FindMaterial_while (rest : list OBJECT_MATERIAL) (tag : string)
         (material : OBJECT_MATERIAL) : bool * OBJECT_MATERIAL :=
  match rest with
  | [] => (false, material)
  | m :: rest' =>
      if (Material.tag m =? tag)%string then
        (true,
         Material.Build (Material.ambientStrength m) (Material.ambientColor m)
                        (Material.diffuseColor m) (Material.specularColor m)
                        (Material.shininess m) (Material.tag material))
      else FindMaterial_while rest' tag material
  end.

(** [FindMaterial(tag, material)]: the result and the content of the
    reference parameter afterwards.  The value the method returns after the
    loop is the literal [true], not [bFound]. *)
Definition FindMaterial (tag : string) (material : OBJECT_MATERIAL)
  : M (bool * OBJECT_MATERIAL) :=
  t <- get_this ;;
  if Z.of_nat (List.length (m_objectMaterials t)) =? 0 then
    ret (false, material)
  else
    let '(bFound, material') := FindMaterial_while (m_objectMaterials t) tag material in
    ret (true, material').

Definition SetTransformations (scaleXYZ : vec3)
           (XrotationDegrees YrotationDegrees ZrotationDegrees : float)
           (positionXYZ : vec3) : M unit :=
  let scale := glm.scale scaleXYZ in
  let rotationX := glm.rotate (glm.radians XrotationDegrees) (Vec3 1 0 0) in
  let rotationY := glm.rotate (glm.radians YrotationDegrees) (Vec3 0 1 0) in
  let rotationZ := glm.rotate (glm.radians ZrotationDegrees) (Vec3 0 0 1) in
  let translation := glm.translate positionXYZ in
  let modelView :=
    glm.mul (glm.mul (glm.mul (glm.mul translation rotationX) rotationY) rotationZ) scale in
  t <- get_this ;;
  match m_pShaderManager t with
  | NULL => ret tt
  | Object _ => via_shader (setMat4Value g_ModelName modelView)
  end.

Definition SetShaderColor (redColorValue greenColorValue blueColorValue alphaValue : float)
  : M unit :=
  let currentColor := Vec4 redColorValue greenColorValue blueColorValue alphaValue in
  t <- get_this ;;
  match m_pShaderManager t with
  | NULL => ret tt
  | Object _ =>
      via_shader (setIntValue g_UseTextureName 0) ;;
      via_shader (setVec4Value g_ColorValueName currentColor)
  end.

Definition SetShaderTexture (textureTag : string) : M unit :=
  t <- get_this ;;
  match m_pShaderManager t with
  | NULL => ret tt
  | Object _ =>
      via_shader (setIntValue g_UseTextureName 1) ;;
      textureID <- FindTextureSlot textureTag ;;
      via_shader (setSampler2DValue g_TextureValueName textureID)
  end.

Definition SetTextureUVScale (u v : float) : M unit :=
  t <- get_this ;;
  match m_pShaderManager t with
  | NULL => ret tt
  | Object _ => via_shader (setVec2Value "UVscale" (Vec2 u v))
  end.

(** [OBJECT_MATERIAL material;]: a local without an initialiser. *)
Definition declare_material : M OBJECT_MATERIAL := fun s =>
  Ok (indeterminate (world s)) s [].

Definition SetShaderMaterial (materialTag : string) : M unit :=
  t <- get_this ;;
  if 0 <? Z.of_nat (List.length (m_objectMaterials t)) then
    material <- declare_material ;;
    r <- FindMaterial materialTag material ;;
    let '(bReturn, material) := r in
    if bReturn then
      via_shader (setVec3Value "material.ambientColor" (Material.ambientColor material)) ;;
      via_shader (setFloatValue "material.ambientStrength" (Material.ambientStrength material)) ;;
      via_shader (setVec3Value "material.diffuseColor" (Material.diffuseColor material)) ;;
      via_shader (setVec3Value "material.specularColor" (Material.specularColor material)) ;;
      via_shader (setFloatValue "material.shininess" (Material.shininess material))
    else ret tt
  else ret tt.

Arguments SetTransformations scaleXYZ
  (XrotationDegrees YrotationDegrees ZrotationDegrees)%_R_scope positionXYZ.
Arguments SetShaderColor (redColorValue greenColorValue blueColorValue alphaValue)%_R_scope.
Arguments SetTextureUVScale (u v)%_R_scope.

(** ** The scene: resources *)

Definition LoadScenetexture : M unit :=
  CreateGLTexture (Some "./Source/brick.jpg") "brick" ;;
  CreateGLTexture (Some "./Source/desk.jpg") "desk" ;;
  CreateGLTexture (Some "./Source/wood.jpg") "wood" ;;
  CreateGLTexture (Some "./Source/plastic.jpg") "plastic" ;;
  BindGLTextures.

(** [m_objectMaterials.push_back(material)] *)
Definition push_back_material (material : OBJECT_MATERIAL) : M unit :=
  t <- get_this ;;
  put_this {| m_pShaderManager := m_pShaderManager t;
              m_textureIDs := m_textureIDs t;
              m_loadedTextures := m_loadedTextures t;
              m_objectMaterials := m_objectMaterials t ++ [material] |}.

Section Materials.
Local Open Scope R_scope.

Definition matMult : float := 0.25.

Definition woodMat : OBJECT_MATERIAL :=
  {| Material.ambientColor := Vec3 0.38 0.26 0.1;
     Material.ambientStrength := 0.2 * matMult;
     Material.diffuseColor := Vec3 0.36 0.24 0.12;
     Material.specularColor := Vec3 0.12 0.14 0.08;
     Material.shininess := 0.3;
     Material.tag := "wood" |}.

Definition plasticMat : OBJECT_MATERIAL :=
  {| Material.ambientColor := Vec3 0.0005 0.0005 0.0005;
     Material.ambientStrength := 0.3;
     Material.diffuseColor := Vec3 0.05 0.05 0.06;
     Material.specularColor := Vec3 0.06 0.05 0.05;
     Material.shininess := 0.2;
     Material.tag := "plastic" |}.

Definition rubberMat : OBJECT_MATERIAL :=
  {| Material.ambientColor := Vec3 0.92 0.24 0.90;
     Material.ambientStrength := 0.3 * matMult;
     Material.diffuseColor := Vec3 0.93 0.28 0.92;
     Material.specularColor := Vec3 0.94 0.30 0.93;
     Material.shininess := 0;
     Material.tag := "rubber" |}.

Definition glassMat : OBJECT_MATERIAL :=
  {| Material.ambientColor := Vec3 0.7 0.7 0.7;
     Material.ambientStrength := 0.1 * matMult;
     Material.diffuseColor := Vec3 0.84 0.84 0.84;
     Material.specularColor := Vec3 0.92 0.92 0.92;
     Material.shininess := 32;
     Material.tag := "glass" |}.

Definition brickMat : OBJECT_MATERIAL :=
  {| Material.ambientColor := Vec3 0.8 0.8 0.8;
     Material.ambientStrength := 0.2 * matMult;
     Material.diffuseColor := Vec3 0.84 0.84 0.84;
     Material.specularColor := Vec3 0.92 0.92 0.92;
     Material.shininess := 0.1;
     Material.tag := "brick" |}.

Definition paperMat : OBJECT_MATERIAL :=
  {| Material.ambientColor := Vec3 0.8 0.8 0.8;
     Material.ambientStrength := 0.3 * matMult;
     Material.diffuseColor := Vec3 0.84 0.84 0.84;
     Material.specularColor := Vec3 0.92 0.92 0.92;
     Material.shininess := 0.1;
     Material.tag := "paper" |}.

Definition topBookCoverMat : OBJECT_MATERIAL :=
  {| Material.ambientColor := Vec3 0.3 0.3 0.3;
     Material.ambientStrength := 0.5 * matMult;
     Material.diffuseColor := Vec3 0 0.3 0.3;
     Material.specularColor := Vec3 0.3 0.3 0.3;
     Material.shininess := 0.4;
     Material.tag := "top_cover" |}.

Definition bottomBookCoverMat : OBJECT_MATERIAL :=
  {| Material.ambientColor := Vec3 0.84 0.726 0.012;
     Material.ambientStrength := 0.5 * matMult;
     Material.diffuseColor := Vec3 0.89 0.73 0.02;
     Material.specularColor := Vec3 0.895 0.73 0.03;
     Material.shininess := 0.4;
     Material.tag := "bottom_cover" |}.
End Materials.

Definition DefineObjectMaterials : M unit :=
  push_back_material woodMat ;;
  push_back_material plasticMat ;;
  push_back_material rubberMat ;;
  push_back_material glassMat ;;
  push_back_material brickMat ;;
  push_back_material paperMat ;;
  push_back_material topBookCoverMat ;;
  push_back_material bottomBookCoverMat.

(** The three-float overload [setVec3Value(name, x, y, z)] is recorded as
    the vector it sets.  None of these calls is guarded by a null test. *)
Definition SetupSceneLights : M unit :=
  via_shader (setVec3Value "lightSources[0].position" (Vec3 3.0 6.0 0.0)) ;;
  via_shader (setVec3Value "lightSources[0].ambientColor" (Vec3 0.01 0.01 0.01)) ;;
  via_shader (setVec3Value "lightSources[0].diffuseColor" (Vec3 0.01 0.01 0.01)) ;;
  via_shader (setVec3Value "lightSources[0].specularColor" (Vec3 0.1 0.1 0.1)) ;;
  via_shader (setFloatValue "lightSources[0].focalStrength" 0.10%R) ;;
  via_shader (setFloatValue "lightSources[0].specularIntensity" 0.05%R) ;;

  via_shader (setVec3Value "lightSources[1].position" (Vec3 0.0 1.0 3.0)) ;;
  via_shader (setVec3Value "lightSources[1].ambientColor" (Vec3 0.08 0.08 0.113)) ;;
  via_shader (setVec3Value "lightSources[1].diffuseColor" (Vec3 0.568 0.388 0.133)) ;;
  via_shader (setVec3Value "lightSources[1].specularColor" (Vec3 0.588 0.408 0.153)) ;;
  via_shader (setFloatValue "lightSources[1].focalStrength" 20.1%R) ;;
  via_shader (setFloatValue "lightSources[1].specularIntensity" 1.01%R) ;;

  via_shader (setBoolValue "bUseLighting" true).

Definition PrepareScene : M unit :=
  LoadScenetexture ;;
  DefineObjectMaterials ;;
  SetupSceneLights ;;
  call LoadBoxMesh ;;
  call LoadCylinderMesh ;;
  call LoadPlaneMesh ;;
  call LoadTaperedCylinderMesh ;;
  call LoadConeMesh.

(** ** The scene: object builders *)

Definition MakeDesk : M unit :=
  SetTransformations (Vec3 30 1 10) 0 0 0 (Vec3 0 0 0) ;;
  SetShaderTexture "desk" ;;
  SetTextureUVScale 2 2 ;;
  SetShaderMaterial "wood" ;;
  call DrawPlaneMesh.

Definition MakeBackWall : M unit :=
  SetTransformations (Vec3 30 1 10) 90 0 0 (Vec3 0 10 (-10)) ;;
  SetShaderTexture "brick" ;;
  SetTextureUVScale 7 3 ;;
  SetShaderMaterial "brick" ;;
  call DrawPlaneMesh.

Definition MakeDeskStand : M unit :=
  SetTransformations (Vec3 14 1 4) 0 0 0 (Vec3 0 2 (-6)) ;;
  SetShaderTexture "desk" ;;
  SetTextureUVScale 1 1 ;;
  SetShaderMaterial "wood" ;;
  call DrawBoxMesh ;;

  SetTransformations (Vec3 1 2 4) 0 0 0 (Vec3 6.5 1 (-6)) ;;
  SetShaderTexture "desk" ;;
  SetTextureUVScale 1 1 ;;
  SetShaderMaterial "wood" ;;
  call DrawBoxMesh ;;

  SetTransformations (Vec3 1 2 4) 0 0 0 (Vec3 (-6.5) 1 (-6)) ;;
  SetShaderTexture "desk" ;;
  SetTextureUVScale 1 1 ;;
  SetShaderMaterial "wood" ;;
  call DrawBoxMesh.

Definition MakeMug : M unit :=
  SetTransformations (Vec3 0.125 0.75 0.125) 0 0 90 (Vec3 1.5 4.1 (-5)) ;;
  SetShaderTexture "plastic" ;;
  SetShaderMaterial "glass" ;;
  call DrawCylinderMesh ;;

  SetTransformations (Vec3 0.125 0.75 0.125) 0 0 90 (Vec3 1.25 3.1 (-5)) ;;
  call DrawCylinderMesh ;;

  SetTransformations (Vec3 0.125 1.3 0.125) 0 0 165.86 (Vec3 1.5 4.2 (-5)) ;;
  call DrawCylinderMesh ;;

  SetTransformations (Vec3 1 2 1) 0 0 180 (Vec3 0 4.5 (-5)) ;;
  call DrawTaperedCylinderMesh.

Definition MakeBooks : M unit :=
  SetTransformations (Vec3 3 1 4) 0 20 0 (Vec3 (-2.5) 0.5 0) ;;
  SetShaderMaterial "paper" ;;
  call DrawBoxMesh ;;

  SetTransformations (Vec3 1.5 0.5 2) 0 20 0 (Vec3 (-2.5) 1.001 0) ;;
  SetShaderMaterial "bottom_cover" ;;
  call DrawPlaneMesh ;;

  SetTransformations (Vec3 0.5 1 2) 0 20 90 (Vec3 (-3.93) 0.5 0.495) ;;
  SetShaderMaterial "bottom_cover" ;;
  call DrawPlaneMesh ;;

  SetTransformations (Vec3 2.6 1 3.467) 0 (-20) 0 (Vec3 (-2.5) 1.5 0) ;;
  SetShaderMaterial "paper" ;;
  call DrawBoxMesh ;;

  SetTransformations (Vec3 1.35 0.5 1.75) 0 (-20) 0 (Vec3 (-2.5) 2.001 0) ;;
  SetShaderMaterial "top_cover" ;;
  call DrawPlaneMesh ;;

  SetTransformations (Vec3 0.5 1 1.75) 0 (-20) 90 (Vec3 (-3.73) 1.5 (-0.535)) ;;
  SetShaderMaterial "top_cover" ;;
  call DrawPlaneMesh ;;

  SetTransformations (Vec3 1.35 0.5 1.75) 0 (-20) 0 (Vec3 (-2.5) 0.999 0) ;;
  SetShaderMaterial "top_cover" ;;
  call DrawPlaneMesh.

Definition MakeLamp : M unit :=
  let offset_0 : float := 4%R in
  let offset_1 : float := 0%R in
  let offset_2 : float := (-1)%R in
  SetTransformations (Vec3 1.5 0.35 1.5) 0 0 0 (Vec3 (-0.65 + offset_0) (0 + offset_1) (0 + offset_2)) ;;
  SetShaderTexture "plastic" ;;
  SetShaderMaterial "plastic" ;;
  call DrawCylinderMesh ;;

  SetTransformations (Vec3 0.25 3.75 0.25) 0 0 60 (Vec3 (1 + offset_0) (3.3 + offset_1) (0 + offset_2)) ;;
  SetShaderMaterial "plastic" ;;
  call DrawBoxMesh ;;

  SetTransformations (Vec3 0.25 4 0.25) 0 0 (-60) (Vec3 (1 + offset_0) (1.3 + offset_1) (0 + offset_2)) ;;
  SetShaderMaterial "plastic" ;;
  call DrawBoxMesh ;;

  SetTransformations (Vec3 1.25 2 1.25) (-15) 0 (-30) (Vec3 (-1 + offset_0) (3 + offset_1) (0.25 + offset_2)) ;;
  SetShaderMaterial "plastic" ;;
  call DrawConeMesh.

Definition MakePenHolder : M unit :=
  let offset_0 : float := (-3)%R in
  let offset_1 : float := 3.5%R in
  let offset_2 : float := (-6)%R in
  SetTransformations (Vec3 1.5 2 0.25) 0 0 0 (Vec3 (0 + offset_0) (0 + offset_1) (0.6 + offset_2)) ;;
  SetShaderTexture "wood" ;;
  SetTextureUVScale 0.25 0.25 ;;
  SetShaderMaterial "wood" ;;
  call DrawBoxMesh ;;

  SetTransformations (Vec3 0.25 2 1.4) 0 0 0 (Vec3 (0.6 + offset_0) (0 + offset_1) (0 + offset_2)) ;;
  SetShaderTexture "wood" ;;
  SetTextureUVScale 0.25 0.25 ;;
  SetShaderMaterial "wood" ;;
  call DrawBoxMesh ;;

  SetTransformations (Vec3 0.25 2 1.4) 0 0 0 (Vec3 (-0.6 + offset_0) (0 + offset_1) (0 + offset_2)) ;;
  SetShaderTexture "wood" ;;
  SetTextureUVScale 0.25 0.25 ;;
  SetShaderMaterial "wood" ;;
  call DrawBoxMesh ;;

  SetTransformations (Vec3 1.5 2 0.25) 0 0 0 (Vec3 (0 + offset_0) (0 + offset_1) (-0.6 + offset_2)) ;;
  SetShaderTexture "wood" ;;
  SetTextureUVScale 0.25 0.25 ;;
  SetShaderMaterial "wood" ;;
  call DrawBoxMesh ;;

  SetTransformations (Vec3 0.125 3 0.125) 0 0 15 (Vec3 (0.1 + offset_0) (-0.5 + offset_1) (0 + offset_2)) ;;
  SetShaderTexture "plastic" ;;
  SetShaderMaterial "wood" ;;
  call DrawCylinderMesh ;;

  SetTransformations (Vec3 0.125 3 0.125) 20 0 (-10) (Vec3 (0.1 + offset_0) (-0.5 + offset_1) (-0.5 + offset_2)) ;;
  SetShaderMaterial "wood" ;;
  call DrawCylinderMesh ;;

  SetTransformations (Vec3 0.12 0.2 0.12) 0 0 15 (Vec3 (-0.66 + offset_0) (2.35 + offset_1) (0 + offset_2)) ;;
  SetShaderMaterial "rubber" ;;
  call DrawCylinderMesh ;;

  SetTransformations (Vec3 0.12 0.2 0.12) 20 0 (-10) (Vec3 (0.61 + offset_0) (2.21 + offset_1) (0.49 + offset_2)) ;;
  SetShaderMaterial "rubber" ;;
  call DrawCylinderMesh.

Definition RenderScene : M unit :=
  MakeDesk ;;
  MakeBackWall ;;
  MakeDeskStand ;;
  MakeMug ;;
  MakeBooks ;;
  MakeLamp ;;
  MakePenHolder.

(** The object builders, by name. *)
Inductive Builder :=
| Desk | BackWall | DeskStand | Mug | Books | Lamp | PenHolder.

Definition build (b : Builder) : M unit :=
  match b with
  | Desk => MakeDesk
  | BackWall => MakeBackWall
  | DeskStand => MakeDeskStand
  | Mug => MakeMug
  | Books => MakeBooks
  | Lamp => MakeLamp
  | PenHolder => MakePenHolder
  end.
(** ** Notions used by the statements *)

(** The five lighting coefficients of a material (everything but its tag). *)
Definition coefficients (m : OBJECT_MATERIAL) :=
  (Material.ambientColor m, Material.ambientStrength m, Material.diffuseColor m,
   Material.specularColor m, Material.shininess m).

(** The tags of the occupied slots, in slot order. *)
Definition occupied_tags (t : SceneManager) : list string :=
  map Texture.tag (firstn (Z.to_nat (m_loadedTextures t)) (m_textureIDs t)).

(** [loaded_from s0 tags s]: [s] is reached from [s0] by successful calls of
    [CreateGLTexture], one per tag of [tags], in that order. *)
Inductive loaded_from (s0 : State) : list string -> State -> Prop :=
| loaded_none : loaded_from s0 [] s0
| loaded_next tags s1 filename tag s2 calls :
    loaded_from s0 tags s1 ->
    CreateGLTexture filename tag s1 = Ok true s2 calls ->
    loaded_from s0 (tags ++ [tag]) s2.

(** A method that leaves the manager and the world as it found them. *)
Definition preserves_state {A} (m : M A) : Prop :=
  forall s a s' calls, m s = Ok a s' calls -> s' = s.


(** A method that returns from [s] without changing it. *)
Definition returns {A} (s : State) (m : M A) : Prop :=
  exists a calls, m s = Ok a s calls.

(** The states in which every composer method returns: the occupied slots
    fit the array, and the shader manager is there unless no material is
    registered. *)
Definition composable (s : State) : Prop :=
  (Z.to_nat (m_loadedTextures (this s)) <= List.length (m_textureIDs (this s)))%nat
  /\ (m_pShaderManager (this s) <> NULL \/ m_objectMaterials (this s) = []).

(** ** Concrete inputs used by the examples *)

(** A recognisable content for uninitialised material storage. *)
Definition stale_material : OBJECT_MATERIAL :=
  Material.Build 7 (Vec3 7 7 7) (Vec3 7 7 7) (Vec3 7 7 7) 7 "stale".

(** A world in which every named file decodes to a 64x64 RGB image. *)
Definition sample_world : World :=
  {| stbi_load := fun filename =>
       match filename with
       | Some _ => Some {| width := 64; height := 64; colorChannels := 3 |}
       | None => None
       end;
     gl_fresh := 1;
     indeterminate := stale_material |}.

(** A manager just constructed around the shader manager [p]. *)
Definition constructed (p : pointer) : State :=
  {| this := SceneManager_new p; world := sample_world |}.

(** The state a method leaves, when it returns. *)
Definition state_after {A} (m : M A) (s : State) : State :=
  match m s with
  | Ok _ s' _ => s'
  | Undefined _ => s
  end.

(** Load one texture per tag, from the file named after the tag. *)
Fixpoint load_tags (tags : list string) : M unit :=
  match tags with
  | [] => ret tt
  | tag :: rest => CreateGLTexture (Some (tag ++ ".jpg")%string) tag ;; load_tags rest
  end.

Definition sixteen_tags : list string :=
  ["t00"; "t01"; "t02"; "t03"; "t04"; "t05"; "t06"; "t07";
   "t08"; "t09"; "t10"; "t11"; "t12"; "t13"; "t14"; "t15"].

(** A manager whose sixteen slots are all occupied. *)
Definition full_registry : State :=
  state_after (load_tags sixteen_tags) (constructed (Object 1)).

(** A manager with two textures, "wood" then "brick". *)
Definition wood_brick : State :=
  state_after (load_tags ["wood"; "brick"]) (constructed (Object 1)).

(** A manager in which "wood" is the only material. *)
Definition wood_only : State :=
  state_after (push_back_material woodMat) (constructed (Object 1)).

(** A manager holding the scene's eight materials, around shader manager [p]. *)
Definition with_materials (p : pointer) : State :=
  state_after DefineObjectMaterials (constructed p).

(** The manager after [PrepareScene]. *)
Definition prepared : State :=
  state_after PrepareScene (constructed (Object 1)).

(** A second material tagged "paper", with other coefficients. *)
Definition glossyPaperMat : OBJECT_MATERIAL :=
  Material.Build 1 (Vec3 1 1 1) (Vec3 1 1 1) (Vec3 1 1 1) 64 "paper".

(** A manager in which "paper" is registered twice. *)
Definition two_papers : State :=
  state_after (push_back_material paperMat ;; push_back_material glossyPaperMat)
              (constructed (Object 1)).

(** [first_occurrence tags tag r]: [r] is the position (from 0) of the first
    element of [tags] equal to [tag], or [-1] when [tag] does not occur. *)
Definition first_occurrence (tags : list string) (tag : string) (r : Z) : Prop :=
  (r = -1 /\ ~ In tag tags)
  \/ (0 <= r
      /\ nth_error tags (Z.to_nat r) = Some tag
      /\ forall j, (j < Z.to_nat r)%nat -> nth_error tags j <> Some tag).

(** The calls [MakeDesk] makes in the prepared scene, where the texture
    "desk" sits in slot 1. *)
Definition desk_calls : list Call :=
  [setMat4Value "model"
     (glm.mul
        (glm.mul
           (glm.mul
              (glm.mul (glm.translate (Vec3 0 0 0))
                       (glm.rotate (glm.radians 0%R) (Vec3 1 0 0)))
              (glm.rotate (glm.radians 0%R) (Vec3 0 1 0)))
           (glm.rotate (glm.radians 0%R) (Vec3 0 0 1)))
        (glm.scale (Vec3 30 1 10)));
   setIntValue "bUseTexture" 1;
   setSampler2DValue "objectTexture" 1;
   setVec2Value "UVscale" (Vec2 2 2);
   setVec3Value "material.ambientColor" (Vec3 0.38 0.26 0.1);
   setFloatValue "material.ambientStrength" (0.2 * matMult)%R;
   setVec3Value "material.diffuseColor" (Vec3 0.36 0.24 0.12);
   setVec3Value "material.specularColor" (Vec3 0.12 0.14 0.08);
   setFloatValue "material.shininess" 0.3%R;
   DrawPlaneMesh].

(** ** Further notions *)

(** Whether [CreateGLTexture] uploads the file: the decoder yields an image
    with three channels (and the file name is not null) or with four. *)
Definition loadable (w : World) (filename : option string) : bool :=
  match stbi_load w filename with
  | Some img =>
      ((colorChannels img =? 3) && is_nonnull filename) || (colorChannels img =? 4)
  | None => false
  end.

(** The count of occupied slots lies within the array. *)
Definition fits (t : SceneManager) : Prop :=
  0 <= m_loadedTextures t <= Z.of_nat (List.length (m_textureIDs t)).

(** The manager with [slot] registered in the next free slot. *)
Definition registered (t : SceneManager) (slot : TEXTURE_INFO) : SceneManager :=
  {| m_pShaderManager := m_pShaderManager t;
     m_textureIDs := list_set (m_textureIDs t) (Z.to_nat (m_loadedTextures t)) slot;
     m_loadedTextures := m_loadedTextures t + 1;
     m_objectMaterials := m_objectMaterials t |}.

(** The handles of the occupied slots, in slot order. *)
Definition occupied_IDs (t : SceneManager) : list Z :=
  map Texture.ID (firstn (Z.to_nat (m_loadedTextures t)) (m_textureIDs t)).

(** A world in which every named file decodes to a one-channel image. *)
Definition grey_world : World :=
  {| stbi_load := fun filename =>
       match filename with
       | Some _ => Some {| width := 8; height := 8; colorChannels := 1 |}
       | None => None
       end;
     gl_fresh := 1;
     indeterminate := stale_material |}.

Definition grey_state : State :=
  {| this := SceneManager_new (Object 1); world := grey_world |}.

(** The calls that bind the handles [ids] to the texture units [unit],
    [unit + 1], ... in turn. *)
Fixpoint unit_bindings (unit : Z) (ids : list Z) : list Call :=
  match ids with
  | [] => []
  | id :: rest =>
      glActiveTexture unit :: glBindTexture GL_TEXTURE_2D id
        :: unit_bindings (unit + 1) rest
  end.

(** The [n] texture names GL hands out from [g] on. *)
Fixpoint names_from (g : Z) (n : nat) : list Z :=
  match n with
  | O => []
  | S k => g :: names_from (g + 1) k
  end.

(** The slots [rest] with their handles replaced by the names from [g] on. *)
Fixpoint renamed (rest : list TEXTURE_INFO) (g : Z) : list TEXTURE_INFO :=
  match rest with
  | [] => []
  | x :: rest' => Texture.Build (Texture.tag x) g :: renamed rest' (g + 1)
  end.

(** The eight materials of the scene, in the order [DefineObjectMaterials]
    registers them. *)
Definition scene_materials : list OBJECT_MATERIAL :=
  [woodMat; plasticMat; rubberMat; glassMat; brickMat; paperMat;
   topBookCoverMat; bottomBookCoverMat].

(** The five uniform writes of [SetShaderMaterial], for the material [m]. *)
Definition material_writes (m : OBJECT_MATERIAL) : list Call :=
  [setVec3Value "material.ambientColor" (Material.ambientColor m);
   setFloatValue "material.ambientStrength" (Material.ambientStrength m);
   setVec3Value "material.diffuseColor" (Material.diffuseColor m);
   setVec3Value "material.specularColor" (Material.specularColor m);
   setFloatValue "material.shininess" (Material.shininess m)].


(** The files [LoadScenetexture] loads and the tags it gives them. *)
Definition scene_textures : list (string * string) :=
  [("./Source/brick.jpg", "brick"); ("./Source/desk.jpg", "desk");
   ("./Source/wood.jpg", "wood"); ("./Source/plastic.jpg", "plastic")].

(** The calls through [m_basicMeshes] that draw, and those that load. *)
Definition is_draw (c : Call) : bool :=
  match c with
  | DrawPlaneMesh | DrawBoxMesh | DrawCylinderMesh
  | DrawTaperedCylinderMesh | DrawConeMesh => true
  | _ => false
  end.

Definition is_mesh_load (c : Call) : bool :=
  match c with
  | LoadBoxMesh | LoadCylinderMesh | LoadPlaneMesh
  | LoadTaperedCylinderMesh | LoadConeMesh => true
  | _ => false
  end.

(** The load call that makes a draw call's mesh available. *)
Definition load_for (draw : Call) : Call :=
  match draw with
  | DrawPlaneMesh => LoadPlaneMesh
  | DrawBoxMesh => LoadBoxMesh
  | DrawCylinderMesh => LoadCylinderMesh
  | DrawTaperedCylinderMesh => LoadTaperedCylinderMesh
  | DrawConeMesh => LoadConeMesh
  | other => other
  end.

(** The meshes each builder draws, in order. *)
Definition builder_draws (b : Builder) : list Call :=
  match b with
  | Desk => [DrawPlaneMesh]
  | BackWall => [DrawPlaneMesh]
  | DeskStand => [DrawBoxMesh; DrawBoxMesh; DrawBoxMesh]
  | Mug => [DrawCylinderMesh; DrawCylinderMesh; DrawCylinderMesh;
            DrawTaperedCylinderMesh]
  | Books => [DrawBoxMesh; DrawPlaneMesh; DrawPlaneMesh; DrawBoxMesh;
              DrawPlaneMesh; DrawPlaneMesh; DrawPlaneMesh]
  | Lamp => [DrawCylinderMesh; DrawBoxMesh; DrawBoxMesh; DrawConeMesh]
  | PenHolder => [DrawBoxMesh; DrawBoxMesh; DrawBoxMesh; DrawBoxMesh;
                  DrawCylinderMesh; DrawCylinderMesh; DrawCylinderMesh;
                  DrawCylinderMesh]
  end.

(** Every call a method makes, when it returns, that satisfies [keep], in
    order. *)
Definition selects {A} (keep : Call -> bool) (m : M A) (l : list Call) : Prop :=
  forall s a s' calls, m s = Ok a s' calls -> filter keep calls = l.

Definition is_mesh_call (c : Call) : bool := is_draw c || is_mesh_load c.

(** The builders in the order [RenderScene] runs them. *)
Definition scene_builders : list Builder :=
  [Desk; BackWall; DeskStand; Mug; Books; Lamp; PenHolder].

(** A method that, run from [s], returns [a], leaves [s] as it was and makes
    the calls [calls]. *)
Definition runs {A} (s : State) (m : M A) (a : A) (calls : list Call) : Prop :=
  m s = Ok a s calls.

(** The uniform writes that set the texture state of the shader: the
    texture switch, the sampler and the UV scale. *)
Definition is_texture_state (c : Call) : bool :=
  match c with
  | setIntValue _ _ | setSampler2DValue _ _ | setVec2Value _ _ => true
  | _ => false
  end.

(** Every call a method makes, when it returns, satisfies [ok]. *)
Definition only {A} (ok : Call -> bool) (m : M A) : Prop :=
  forall s a s' calls, m s = Ok a s' calls -> Forall (fun c => ok c = true) calls.

(** ** The states of a manager *)

(** The member functions of [SceneManager], with their arguments. *)
Inductive method : forall A : Type, M A -> Prop :=
| method_CreateGLTexture filename tag : method bool (CreateGLTexture filename tag)
| method_BindGLTextures : method unit BindGLTextures
| method_DestroyGLTextures : method unit DestroyGLTextures
| method_FindTextureID tag : method Z (FindTextureID tag)
| method_FindTextureSlot tag : method Z (FindTextureSlot tag)
| method_FindMaterial tag material :
    method (bool * OBJECT_MATERIAL) (FindMaterial tag material)
| method_SetTransformations scaleXYZ rx ry rz positionXYZ :
    method unit (SetTransformations scaleXYZ rx ry rz positionXYZ)
| method_SetShaderColor r g b a : method unit (SetShaderColor r g b a)
| method_SetShaderTexture tag : method unit (SetShaderTexture tag)
| method_SetTextureUVScale u v : method unit (SetTextureUVScale u v)
| method_SetShaderMaterial tag : method unit (SetShaderMaterial tag)
| method_LoadScenetexture : method unit LoadScenetexture
| method_DefineObjectMaterials : method unit DefineObjectMaterials
| method_SetupSceneLights : method unit SetupSceneLights
| method_PrepareScene : method unit PrepareScene
| method_RenderScene : method unit RenderScene
| method_build b : method unit (build b).

(** The states a living [SceneManager] can be in: that of a manager just
    constructed, in any world, and those left by a member function that
    returned, whatever the world has become between two calls. *)
Inductive reachable : State -> Prop :=
| reachable_constructed p w :
    reachable {| this := SceneManager_new p; world := w |}
| reachable_world s w :
    reachable s -> reachable {| this := this s; world := w |}
| reachable_method A (m : M A) s a s' calls :
    reachable s -> method A m -> m s = Ok a s' calls -> reachable s'.

(** A method that leaves [m_objectMaterials] as it found it. *)
Definition keeps_materials {A} (m : M A) : Prop :=
  forall s a s' calls,
    m s = Ok a s' calls -> m_objectMaterials (this s') = m_objectMaterials (this s).

(** No material is registered, or the registry begins with the eight
    materials of the scene. *)
Definition defined_materials (t : SceneManager) : Prop :=
  m_objectMaterials t = []
  \/ exists rest, m_objectMaterials t = scene_materials ++ rest.

(** The tags the scene's materials carry. *)
Definition scene_tags : list string := map Material.tag scene_materials.

(** [blind t m]: run on the manager [t], the method [m] does the same in any
    two worlds.  Either it returns in both, with the same value and the same
    calls, leaving the manager and each world as they were, or it runs into
    the same fault in both. *)
Definition blind {A} (t : SceneManager) (m : M A) : Prop :=
  forall w1 w2 : World,
    match m {| this := t; world := w1 |}, m {| this := t; world := w2 |} with
    | Ok a1 s1 calls1, Ok a2 s2 calls2 =>
        a1 = a2 /\ calls1 = calls2
        /\ s1 = {| this := t; world := w1 |}
        /\ s2 = {| this := t; world := w2 |}
    | Undefined f1, Undefined f2 => f1 = f2
    | _, _ => False
    end.
(** ** Basic facts about the monad *)

Lemma bind_Ok {A B} (m : M A) (k : A -> M B) s b s2 calls :
  bind m k s = Ok b s2 calls ->
  exists a s1 c1 c2,
    m s = Ok a s1 c1 /\ k a s1 = Ok b s2 c2 /\ calls = c1 ++ c2.
Proof.
  unfold bind. destruct (m s) as [a s1 c1|f]; [|discriminate].
  destruct (k a s1) as [b' s2' c2|f] eqn:Hk; [|discriminate].
  intros H. inversion H; subst. now exists a, s1, c1, c2.
Qed.

Lemma preserves_ret {A} (a : A) : preserves_state (ret a).
Proof. intros s a' s' calls H. now inversion H. Qed.

Lemma preserves_bind {A B} (m : M A) (k : A -> M B) :
  preserves_state m -> (forall a, preserves_state (k a)) ->
  preserves_state (bind m k).
Proof.
  intros Hm Hk s b s2 calls H.
  apply bind_Ok in H as (a & s1 & c1 & c2 & H1 & H2 & _).
  apply Hm in H1. subst s1. now apply Hk in H2.
Qed.

Lemma preserves_get_this : preserves_state get_this.
Proof. intros s a s' calls H. now inversion H. Qed.

Lemma preserves_call c : preserves_state (call c).
Proof. intros s a s' calls H. now inversion H. Qed.

Lemma preserves_undefined {A} f : preserves_state (@undefined A f).
Proof. intros s a s' calls H. discriminate. Qed.

Lemma preserves_declare_material : preserves_state declare_material.
Proof. intros s a s' calls H. now inversion H. Qed.

Create HintDb preserves.
#[local] Hint Resolve preserves_ret preserves_get_this preserves_call
  preserves_undefined preserves_declare_material : preserves.

Ltac preserves_step :=
  match goal with
  | |- preserves_state (bind _ _) => apply preserves_bind; [|intro]
  | |- preserves_state (match ?x with _ => _ end) => destruct x
  | |- preserves_state (if ?x then _ else _) => destruct x
  | |- preserves_state _ => solve [auto with preserves]
  end.

Lemma preserves_via_shader c : preserves_state (via_shader c).
Proof. unfold via_shader. repeat preserves_step. Qed.

Lemma preserves_load_slot i : preserves_state (load_slot i).
Proof. unfold load_slot. repeat preserves_step. Qed.
#[local] Hint Resolve preserves_via_shader preserves_load_slot : preserves.

Lemma preserves_FindTextureSlot_while n tag i :
  preserves_state (FindTextureSlot_while n tag i).
Proof.
  revert i. induction n as [|n IH]; intro i; simpl.
  - auto with preserves.
  - repeat preserves_step; apply IH.
Qed.

Lemma preserves_FindTextureSlot tag : preserves_state (FindTextureSlot tag).
Proof.
  unfold FindTextureSlot. preserves_step; [auto with preserves|].
  apply preserves_FindTextureSlot_while.
Qed.

Lemma preserves_FindMaterial tag material :
  preserves_state (FindMaterial tag material).
Proof.
  unfold FindMaterial. preserves_step; [auto with preserves|].
  destruct (FindMaterial_while _ _ _). repeat preserves_step.
Qed.
#[local] Hint Resolve preserves_FindTextureSlot preserves_FindMaterial : preserves.

Lemma preserves_SetTransformations sc rx ry rz pos :
  preserves_state (SetTransformations sc rx ry rz pos).
Proof. unfold SetTransformations. repeat preserves_step. Qed.

Lemma preserves_SetShaderColor r g b a : preserves_state (SetShaderColor r g b a).
Proof. unfold SetShaderColor. repeat preserves_step. Qed.

Lemma preserves_SetShaderTexture tag : preserves_state (SetShaderTexture tag).
Proof. unfold SetShaderTexture. repeat preserves_step. Qed.

Lemma preserves_SetTextureUVScale u v : preserves_state (SetTextureUVScale u v).
Proof. unfold SetTextureUVScale. repeat preserves_step. Qed.

Lemma preserves_SetShaderMaterial tag : preserves_state (SetShaderMaterial tag).
Proof. unfold SetShaderMaterial. repeat preserves_step. Qed.
#[local] Hint Resolve preserves_SetTransformations preserves_SetShaderColor
  preserves_SetShaderTexture preserves_SetTextureUVScale
  preserves_SetShaderMaterial : preserves.

Lemma preserves_build b : preserves_state (build b).
Proof.
  destruct b; cbv [build MakeDesk MakeBackWall MakeDeskStand MakeMug MakeBooks
                   MakeLamp MakePenHolder]; repeat preserves_step.
Qed.

(** ** The material registry *)

Lemma FindMaterial_nonempty_true tag material s :
  m_objectMaterials (this s) <> [] ->
  exists material', FindMaterial tag material s = Ok (true, material') s [].
Proof.
  intros Hne. unfold FindMaterial, bind, get_this.
  destruct (m_objectMaterials (this s)) as [|m rest] eqn:E; [congruence|].
  cbn [List.length]. rewrite Nat2Z.inj_succ.
  destruct (Z.eqb_spec (Z.succ (Z.of_nat (List.length rest))) 0) as [H0|_]; [lia|].
  destruct (FindMaterial_while (m :: rest) tag material) as [bFound material'].
  now exists material'.
Qed.

Lemma FindMaterial_while_miss rest tag material :
  (forall m, In m rest -> Material.tag m <> tag) ->
  FindMaterial_while rest tag material = (false, material).
Proof.
  induction rest as [|m rest IH]; intros Hmiss; simpl; [reflexivity|].
  destruct (String.eqb_spec (Material.tag m) tag) as [E|_].
  - exfalso. apply (Hmiss m); [now left|exact E].
  - apply IH. intros m' Hin. apply Hmiss. now right.
Qed.

(** C2. With "wood" as the only registered material, [FindMaterial] asked
    for "nonexistent" reports found ([true]) although no registered tag
    equals the argument; the caller's material is handed back untouched. *)
Theorem FindMaterial_true_without_match :
  (forall m, In m (m_objectMaterials (this wood_only)) ->
             Material.tag m <> "nonexistent")
  /\ FindMaterial "nonexistent" stale_material wood_only =
       Ok (true, stale_material) wood_only [].
Proof.
  split; [|reflexivity].
  intros m [<-|[]]. discriminate.
Qed.

Lemma nonempty_size_tests {A} (l : list A) :
  l <> [] ->
  (0 <? Z.of_nat (List.length l)) = true /\ (Z.of_nat (List.length l) =? 0) = false.
Proof.
  destruct l; [congruence|]. intros _. cbn [List.length]. rewrite Nat2Z.inj_succ.
  split; [apply Z.ltb_lt|apply Z.eqb_neq]; lia.
Qed.

Lemma FindMaterial_miss tag material s :
  m_objectMaterials (this s) <> [] ->
  (forall m, In m (m_objectMaterials (this s)) -> Material.tag m <> tag) ->
  FindMaterial tag material s = Ok (true, material) s [].
Proof.
  intros Hne Hmiss. unfold FindMaterial, bind, get_this. cbv beta.
  rewrite (proj2 (nonempty_size_tests _ Hne)).
  rewrite (FindMaterial_while_miss _ tag material Hmiss). reflexivity.
Qed.

(** On a miss in a non-empty registry, with a shader manager present,
    [SetShaderMaterial] writes the five uniforms from the uninitialised
    local. *)
Lemma SetShaderMaterial_miss_writes tag s address :
  m_pShaderManager (this s) = Object address ->
  m_objectMaterials (this s) <> [] ->
  (forall m, In m (m_objectMaterials (this s)) -> Material.tag m <> tag) ->
  let junk := indeterminate (world s) in
  SetShaderMaterial tag s =
    Ok tt s
       [setVec3Value "material.ambientColor" (Material.ambientColor junk);
        setFloatValue "material.ambientStrength" (Material.ambientStrength junk);
        setVec3Value "material.diffuseColor" (Material.diffuseColor junk);
        setVec3Value "material.specularColor" (Material.specularColor junk);
        setFloatValue "material.shininess" (Material.shininess junk)].
Proof.
  intros Hp Hne Hmiss junk.
  unfold SetShaderMaterial. unfold bind at 1, get_this at 1. cbv beta iota.
  rewrite (proj1 (nonempty_size_tests _ Hne)).
  unfold bind at 1, declare_material. cbv beta iota.
  unfold bind at 1. rewrite (FindMaterial_miss tag _ s Hne Hmiss).
  unfold via_shader, bind, get_this, call. cbv beta iota.
  repeat (rewrite Hp; cbv beta iota). reflexivity.
Qed.

(** With a null shader manager and a non-empty registry,
    [SetShaderMaterial] calls through the null pointer, whatever the tag. *)
Lemma SetShaderMaterial_null_undefined tag s :
  m_pShaderManager (this s) = NULL ->
  m_objectMaterials (this s) <> [] ->
  SetShaderMaterial tag s = Undefined NullDereference.
Proof.
  intros Hp Hne.
  unfold SetShaderMaterial. unfold bind at 1, get_this at 1. cbv beta iota.
  rewrite (proj1 (nonempty_size_tests _ Hne)).
  unfold bind at 1, declare_material. cbv beta iota.
  unfold bind at 1.
  destruct (FindMaterial_nonempty_true tag (indeterminate (world s)) s Hne)
    as (material' & Hfind).
  rewrite Hfind.
  unfold via_shader, bind, get_this, undefined. cbv beta iota.
  rewrite Hp. reflexivity.
Qed.

(** C3. With the scene's eight materials registered and a shader manager
    present, [SetShaderMaterial "nonexistent"] writes all five [material.*]
    uniforms, from the uninitialised local. *)
Theorem SetShaderMaterial_writes_on_miss :
  (forall m, In m (m_objectMaterials (this (with_materials (Object 1)))) ->
             Material.tag m <> "nonexistent")
  /\ SetShaderMaterial "nonexistent" (with_materials (Object 1)) =
       Ok tt (with_materials (Object 1))
          [setVec3Value "material.ambientColor" (Material.ambientColor stale_material);
           setFloatValue "material.ambientStrength" (Material.ambientStrength stale_material);
           setVec3Value "material.diffuseColor" (Material.diffuseColor stale_material);
           setVec3Value "material.specularColor" (Material.specularColor stale_material);
           setFloatValue "material.shininess" (Material.shininess stale_material)].
Proof.
  split; [|reflexivity].
  intros m Hin. cbn in Hin.
  repeat (destruct Hin as [<-|Hin]; [discriminate|]). destruct Hin.
Qed.

(** The four composer methods that test [m_pShaderManager] do nothing when
    it is null. *)
Lemma guarded_writes_skip_null s :
  m_pShaderManager (this s) = NULL ->
  (forall sc rx ry rz pos, SetTransformations sc rx ry rz pos s = Ok tt s [])
  /\ (forall r g b a, SetShaderColor r g b a s = Ok tt s [])
  /\ (forall tag, SetShaderTexture tag s = Ok tt s [])
  /\ (forall u v, SetTextureUVScale u v s = Ok tt s []).
Proof.
  intros Hp. repeat split; intros;
    unfold SetTransformations, SetShaderColor, SetShaderTexture,
      SetTextureUVScale, bind, get_this; cbv beta; rewrite Hp; reflexivity.
Qed.

(** C4. With a null [m_pShaderManager] and the scene's materials registered,
    [SetShaderMaterial "wood"] calls through the null pointer. *)
Theorem SetShaderMaterial_null_shader :
  m_pShaderManager (this (with_materials NULL)) = NULL
  /\ SetShaderMaterial "wood" (with_materials NULL) = Undefined NullDereference.
Proof. split; reflexivity. Qed.

(** C10. Whatever the tag and whatever the shader-manager pointer (null
    included), [SetShaderMaterial] on an empty material registry returns
    normally, makes no call at all and leaves the state as it was. *)
Theorem SetShaderMaterial_empty_registry :
  forall (materialTag : string) (s : State),
    m_objectMaterials (this s) = [] ->
    SetShaderMaterial materialTag s = Ok tt s [].
Proof.
  intros materialTag s Hempty.
  unfold SetShaderMaterial, bind, get_this. cbv beta.
  rewrite Hempty. reflexivity.
Qed.

Lemma SetShaderMaterial_empty_registry_witness :
  m_objectMaterials (this (constructed NULL)) = []
  /\ SetShaderMaterial "wood" (constructed NULL) = Ok tt (constructed NULL) [].
Proof.
  split; [reflexivity|].
  apply (SetShaderMaterial_empty_registry "wood" (constructed NULL)).
  reflexivity.
Defined.

Lemma FindMaterial_while_first before first rest tag material :
  (forall m, In m before -> Material.tag m <> tag) ->
  Material.tag first = tag ->
  FindMaterial_while (before ++ first :: rest) tag material =
    (true,
     Material.Build (Material.ambientStrength first) (Material.ambientColor first)
                    (Material.diffuseColor first) (Material.specularColor first)
                    (Material.shininess first) (Material.tag material)).
Proof.
  intros Hmiss Hfirst.
  induction before as [|m before IH]; simpl.
  - apply String.eqb_eq in Hfirst. now rewrite Hfirst.
  - destruct (String.eqb_spec (Material.tag m) tag) as [E|_].
    + exfalso. apply (Hmiss m); [now left|exact E].
    + apply IH. intros m' Hin. apply Hmiss. now right.
Qed.

(** C8. When two materials are registered under one tag with different
    coefficients (and none before the first carries that tag), [FindMaterial]
    for the tag reports found and hands back the coefficients of the
    first-registered one, which are not those of the second. *)
Theorem FindMaterial_first_match :
  forall (s : State) (before between after : list OBJECT_MATERIAL)
         (first second material : OBJECT_MATERIAL) (tag : string),
    m_objectMaterials (this s) = before ++ first :: between ++ second :: after ->
    (forall m, In m before -> Material.tag m <> tag) ->
    Material.tag first = tag ->
    Material.tag second = tag ->
    coefficients first <> coefficients second ->
    exists found,
      FindMaterial tag material s = Ok (true, found) s []
      /\ coefficients found = coefficients first
      /\ coefficients found <> coefficients second.
Proof.
  intros s before between after first second material tag Hreg Hmiss H1 H2 Hdiff.
  unfold FindMaterial, bind, get_this. cbv beta.
  rewrite Hreg.
  rewrite (FindMaterial_while_first before first _ tag material Hmiss H1).
  rewrite length_app. cbn [List.length].
  destruct (Z.eqb_spec (Z.of_nat (List.length before + S (List.length (between ++ second :: after)))) 0)
    as [H0|_]; [lia|].
  eexists. split; [reflexivity|]. split; [reflexivity|exact Hdiff].
Qed.

Lemma FindMaterial_first_match_witness :
  exists found,
    FindMaterial "paper" stale_material two_papers = Ok (true, found) two_papers []
    /\ coefficients found = coefficients paperMat
    /\ coefficients found <> coefficients glossyPaperMat.
Proof.
  apply (FindMaterial_first_match two_papers [] [] [] paperMat glossyPaperMat
           stale_material "paper").
  - reflexivity.
  - intros m [].
  - reflexivity.
  - reflexivity.
  - unfold coefficients, paperMat, glossyPaperMat, float; simpl.
    intros H. inversion H. lra.
Defined.

(** ** The texture registry *)

(** At capacity every load whose image decodes with three or four channels
    runs past the end of [m_textureIDs]. *)
Lemma CreateGLTexture_full_overruns filename tag s img :
  m_loadedTextures (this s) = Z.of_nat (List.length (m_textureIDs (this s))) ->
  stbi_load (world s) filename = Some img ->
  ((colorChannels img =? 3) && is_nonnull filename) || (colorChannels img =? 4) = true ->
  CreateGLTexture filename tag s = Undefined OutOfBounds.
Proof.
  intros Hfull Hdecode Hchannels.
  assert (Hreg : forall textureID s1 c,
             this s1 = this s ->
             bind (call c) (fun _ => CreateGLTexture_register textureID tag) s1
             = Undefined OutOfBounds).
  { intros textureID s1 c Hthis.
    unfold CreateGLTexture_register, load_slot, bind, call, get_this, undefined.
    cbv beta. rewrite Hthis.
    assert (Hb : in_bounds (m_textureIDs (this s)) (m_loadedTextures (this s)) = false).
    { unfold in_bounds. rewrite Hfull, Z.ltb_irrefl. apply andb_false_r. }
    rewrite Hb. reflexivity. }
  unfold CreateGLTexture.
  unfold bind at 1. cbn [call].
  unfold bind at 1. rewrite Hdecode.
  unfold bind at 1. cbn [gen_texture].
  do 5 (unfold bind at 1; cbn [call]).
  destruct ((colorChannels img =? 3) && is_nonnull filename).
  - rewrite Hreg by reflexivity. reflexivity.
  - cbn in Hchannels. rewrite Hchannels.
    rewrite Hreg by reflexivity. reflexivity.
Qed.

(** C1. In the manager whose sixteen slots are occupied, loading a 17th tag
    from a file that decodes does not return failure: the registration
    stores to [m_textureIDs[16]], past the end of the array. *)
Theorem CreateGLTexture_at_capacity :
  m_loadedTextures (this full_registry) = 16
  /\ occupied_tags (this full_registry) = sixteen_tags
  /\ List.length (m_textureIDs (this full_registry)) = 16%nat
  /\ CreateGLTexture (Some "extra.jpg") "extra" full_registry = Undefined OutOfBounds.
Proof. repeat split; vm_compute; reflexivity. Qed.

Lemma load_slot_Ok i s slot s1 c :
  load_slot i s = Ok slot s1 c -> s1 = s /\ c = [].
Proof.
  unfold load_slot, bind, get_this, ret, undefined. cbv beta.
  destruct (if in_bounds _ _ then _ else _); [|discriminate].
  intros H. inversion H. auto.
Qed.

Lemma store_slot_Ok i slot s a s1 c :
  store_slot i slot s = Ok a s1 c ->
  c = [] /\ m_loadedTextures (this s1) = m_loadedTextures (this s).
Proof.
  unfold store_slot, bind, get_this, put_this, undefined. cbv beta.
  destruct (in_bounds _ _); [|discriminate].
  intros H. inversion H. auto.
Qed.

Lemma DestroyGLTextures_loop n :
  forall i s s' calls,
    for_loop n i (fun i =>
      slot <- load_slot i ;;
      name <- gen_texture ;;
      store_slot i (Texture.Build (Texture.tag slot) name)) s = Ok tt s' calls ->
    Forall (fun c => exists name, c = glGenTextures 1 name) calls
    /\ List.length calls = n
    /\ m_loadedTextures (this s') = m_loadedTextures (this s).
Proof.
  induction n as [|n IH]; intros i s s' calls H.
  - inversion H. auto.
  - cbn [for_loop] in H.
    apply bind_Ok in H as ([] & s1 & c1 & c2 & Hbody & Hrest & ->).
    apply bind_Ok in Hbody as (slot & s2 & c3 & c4 & Hload & Hbody & ->).
    apply load_slot_Ok in Hload as (-> & ->).
    apply bind_Ok in Hbody as (name & s3 & c5 & c6 & Hgen & Hstore & ->).
    unfold gen_texture in Hgen. inversion Hgen; subst name s3 c5; clear Hgen.
    apply store_slot_Ok in Hstore as (-> & Hcount).
    apply IH in Hrest as (Hall & Hlen & Hcount').
    cbn [app List.length this m_loadedTextures] in *.
    repeat split.
    + constructor; [eexists; reflexivity|exact Hall].
    + now rewrite Hlen.
    + now rewrite Hcount', Hcount.
Qed.

(** Whenever teardown returns, each of its calls is a [glGenTextures], one
    per occupied slot, and the count of occupied slots is what it was. *)
Lemma DestroyGLTextures_only_generates s s' calls :
  DestroyGLTextures s = Ok tt s' calls ->
  Forall (fun c => exists name, c = glGenTextures 1 name) calls
  /\ List.length calls = Z.to_nat (m_loadedTextures (this s))
  /\ m_loadedTextures (this s') = m_loadedTextures (this s).
Proof.
  unfold DestroyGLTextures. intros H.
  apply bind_Ok in H as (t & s0 & c0 & c1 & Hget & H & ->).
  inversion Hget; subst t s0 c0; clear Hget.
  apply DestroyGLTextures_loop in H. exact H.
Qed.

(** C5. Teardown of the manager holding "wood" (name 1) and "brick"
    (name 2) makes two [glGenTextures] calls and no [glDeleteTextures] call;
    the slots then hold the newly generated names 3 and 4, and
    [m_loadedTextures] is still 2. *)
Theorem DestroyGLTextures_generates :
  map Texture.ID (firstn 2 (m_textureIDs (this wood_brick))) = [1; 2]
  /\ exists s',
       DestroyGLTextures wood_brick = Ok tt s' [glGenTextures 1 3; glGenTextures 1 4]
       /\ map Texture.ID (firstn 2 (m_textureIDs (this s'))) = [3; 4]
       /\ m_loadedTextures (this s') = 2.
Proof.
  split; [reflexivity|].
  eexists. split; [vm_compute; reflexivity|]. split; reflexivity.
Qed.

(** *** Arrays *)

Lemma length_list_set {A} (l : list A) n x :
  List.length (list_set l n x) = List.length l.
Proof.
  revert n; induction l as [|h t IH]; intros [|n]; simpl; auto.
Qed.

Lemma nth_error_list_set {A} (l : list A) n x :
  (n < List.length l)%nat -> nth_error (list_set l n x) n = Some x.
Proof.
  revert n; induction l as [|h t IH]; intros [|n] Hn; simpl in *; try lia; auto.
  apply IH. lia.
Qed.

Lemma list_set_twice {A} (l : list A) n x y :
  list_set (list_set l n x) n y = list_set l n y.
Proof.
  revert n; induction l as [|h t IH]; intros [|n]; simpl; auto.
  now rewrite IH.
Qed.

Lemma firstn_list_set_next {A} (l : list A) n x :
  (n < List.length l)%nat ->
  firstn (S n) (list_set l n x) = firstn n l ++ [x].
Proof.
  revert n; induction l as [|h t IH]; intros [|n] Hn; simpl in *; try lia; auto.
  f_equal. apply IH. lia.
Qed.

Lemma in_bounds_spec {A} (a : list A) i :
  in_bounds a i = true <-> 0 <= i < Z.of_nat (List.length a).
Proof. unfold in_bounds. rewrite andb_true_iff, Z.leb_le, Z.ltb_lt. tauto. Qed.

(** *** Loading a texture *)

(** What a registration does when it returns: the new entry sits in slot
    [m_loadedTextures], which was inside the array, and the count went up
    by one; nothing else changed. *)
Lemma CreateGLTexture_register_Ok textureID tag s b s' calls :
  CreateGLTexture_register textureID tag s = Ok b s' calls ->
  b = true
  /\ in_bounds (m_textureIDs (this s)) (m_loadedTextures (this s)) = true
  /\ this s' =
       {| m_pShaderManager := m_pShaderManager (this s);
          m_textureIDs := list_set (m_textureIDs (this s))
                            (Z.to_nat (m_loadedTextures (this s)))
                            (Texture.Build tag textureID);
          m_loadedTextures := m_loadedTextures (this s) + 1;
          m_objectMaterials := m_objectMaterials (this s) |}
  /\ world s' = world s.
Proof.
  unfold CreateGLTexture_register, load_slot, store_slot, set_loadedTextures,
    bind, call, get_this, put_this, ret, undefined.
  cbn [this world m_textureIDs m_loadedTextures m_pShaderManager m_objectMaterials].
  destruct (in_bounds (m_textureIDs (this s)) (m_loadedTextures (this s))) eqn:Hb;
    [|discriminate].
  pose proof (proj1 (in_bounds_spec _ _) Hb) as Hrange.
  destruct (nth_error (m_textureIDs (this s)) (Z.to_nat (m_loadedTextures (this s))))
    as [slot|] eqn:Hslot; [|discriminate].
  cbn [this world m_textureIDs m_loadedTextures m_pShaderManager m_objectMaterials].
  rewrite Hb.
  cbn [this world m_textureIDs m_loadedTextures m_pShaderManager m_objectMaterials].
  assert (Hb' : in_bounds (list_set (m_textureIDs (this s))
                             (Z.to_nat (m_loadedTextures (this s)))
                             (Texture.Build (Texture.tag slot) textureID))
                          (m_loadedTextures (this s)) = true).
  { apply in_bounds_spec. rewrite length_list_set. exact Hrange. }
  rewrite Hb'. rewrite nth_error_list_set by lia.
  cbn [this world m_textureIDs m_loadedTextures m_pShaderManager m_objectMaterials
       Texture.tag Texture.ID].
  rewrite Hb'. rewrite list_set_twice.
  intros H. inversion H; subst. cbn. auto.
Qed.

Ltac bind_inv H :=
  let a := fresh "a" in
  let s1 := fresh "s" in
  let c1 := fresh "c" in
  let c2 := fresh "c" in
  let H1 := fresh "Hstep" in
  let Hc := fresh "Hcalls" in
  apply bind_Ok in H as (a & s1 & c1 & c2 & H1 & H & Hc);
  try (unfold call, gen_texture in H1; inversion H1; subst a s1 c1; clear H1).

(** A successful load registers the tag in slot [m_loadedTextures], which
    was inside the array, and touches no other member. *)
Lemma CreateGLTexture_true filename tag s s' calls :
  CreateGLTexture filename tag s = Ok true s' calls ->
  in_bounds (m_textureIDs (this s)) (m_loadedTextures (this s)) = true
  /\ exists textureID,
       this s' =
         {| m_pShaderManager := m_pShaderManager (this s);
            m_textureIDs := list_set (m_textureIDs (this s))
                              (Z.to_nat (m_loadedTextures (this s)))
                              (Texture.Build tag textureID);
            m_loadedTextures := m_loadedTextures (this s) + 1;
            m_objectMaterials := m_objectMaterials (this s) |}.
Proof.
  unfold CreateGLTexture. intros H.
  bind_inv H. bind_inv H.
  destruct (stbi_load (world s) filename) as [img|]; [|discriminate].
  do 6 bind_inv H.
  destruct ((colorChannels img =? 3) && is_nonnull filename);
    [|destruct (colorChannels img =? 4); [|discriminate]];
    bind_inv H;
    apply CreateGLTexture_register_Ok in H as (_ & Hb & Hthis & _);
    (split; [exact Hb|eexists; exact Hthis]).
Qed.

(** What holds of a manager after successful loads of [tags] into a newly
    constructed one: the count is the number of tags, it fits the array, and
    the occupied slots carry the tags in the order of loading. *)
Lemma loaded_from_registry p w tags s :
  loaded_from {| this := SceneManager_new p; world := w |} tags s ->
  m_loadedTextures (this s) = Z.of_nat (List.length tags)
  /\ (List.length tags <= List.length (m_textureIDs (this s)))%nat
  /\ map Texture.tag (firstn (List.length tags) (m_textureIDs (this s))) = tags.
Proof.
  induction 1 as [|tags s1 filename tag s2 calls Hfrom IH Hload].
  - cbn. repeat split; lia.
  - destruct IH as (Hcount & Hfit & Htags).
    apply CreateGLTexture_true in Hload as (Hb & textureID & Hthis).
    apply in_bounds_spec in Hb.
    rewrite Hthis; cbn [m_loadedTextures m_textureIDs].
    rewrite Hcount, Nat2Z.id in *.
    rewrite length_app, length_list_set. cbn [List.length].
    repeat split; try lia.
    replace (List.length tags + 1)%nat with (S (List.length tags)) by lia.
    rewrite firstn_list_set_next by lia.
    rewrite map_app, Htags. reflexivity.
Qed.

(** The scan of [FindTextureSlot] over the slots [rest] that follow the
    slots [pre]. *)
Lemma FindTextureSlot_while_scan s tag rest :
  forall pre tail,
    m_textureIDs (this s) = pre ++ rest ++ tail ->
    exists r,
      FindTextureSlot_while (List.length rest) tag (Z.of_nat (List.length pre)) s = Ok r s []
      /\ ((r = -1 /\ ~ In tag (map Texture.tag rest))
          \/ exists k,
               r = Z.of_nat (List.length pre + k)
               /\ nth_error (map Texture.tag rest) k = Some tag
               /\ forall j, (j < k)%nat -> nth_error (map Texture.tag rest) j <> Some tag).
Proof.
  induction rest as [|x rest IH]; intros pre tail Hslots.
  - exists (-1). split; [reflexivity|]. left. split; [reflexivity|]. intros [].
  - cbn [FindTextureSlot_while List.length].
    assert (Hload : load_slot (Z.of_nat (List.length pre)) s = Ok x s []).
    { unfold load_slot, bind, get_this. cbv beta.
      assert (Hb : in_bounds (m_textureIDs (this s)) (Z.of_nat (List.length pre)) = true).
      { apply in_bounds_spec. rewrite Hslots, !length_app. cbn [List.length]. lia. }
      rewrite Hb, Nat2Z.id, Hslots, nth_error_app2 by lia.
      rewrite Nat.sub_diag. reflexivity. }
    unfold bind at 1. rewrite Hload.
    destruct (String.eqb_spec (Texture.tag x) tag) as [Heq|Hneq].
    + exists (Z.of_nat (List.length pre)). split; [reflexivity|].
      right. exists 0%nat. rewrite Nat.add_0_r. cbn. rewrite Heq.
      repeat split. intros j Hj. lia.
    + specialize (IH (pre ++ [x]) tail).
      rewrite <- !app_assoc in IH. specialize (IH Hslots).
      rewrite length_app in IH. cbn [List.length] in IH.
      replace (Z.of_nat (List.length pre + 1)) with (Z.of_nat (List.length pre) + 1) in IH by lia.
      destruct IH as (r & Hrun & Hr).
      exists r. rewrite Hrun. split; [reflexivity|].
      destruct Hr as [[Hminus Hnot]|(k & Hk & Hat & Hbefore)].
      * left. split; [exact Hminus|]. cbn. intros [E|Hin]; [congruence|tauto].
      * right. exists (S k). split; [rewrite Hk; f_equal; lia|].
        split; [exact Hat|].
        intros [|j] Hj; cbn; [congruence|]. apply Hbefore. lia.
Qed.

(** C7. In a manager reached from a newly constructed one by successful
    loads of [tags], in that order, [FindTextureSlot tag] returns the
    position of the first loaded tag equal to [tag], or -1 when none is; it
    changes nothing and calls nothing.  In particular after "wood" then
    "brick" it returns 1 for "brick" and -1 for "glass". *)
Theorem FindTextureSlot_first_match :
  forall (p : pointer) (w : World) (tags : list string) (s : State) (tag : string),
    loaded_from {| this := SceneManager_new p; world := w |} tags s ->
    (exists r, FindTextureSlot tag s = Ok r s [] /\ first_occurrence tags tag r)
    /\ (tags = ["wood"; "brick"] ->
        FindTextureSlot "brick" s = Ok 1 s []
        /\ FindTextureSlot "glass" s = Ok (-1) s []).
Proof.
  intros p w tags s tag Hfrom.
  assert (Hgen : forall tag,
             exists r, FindTextureSlot tag s = Ok r s [] /\ first_occurrence tags tag r).
  { clear tag. intros tag.
    destruct (loaded_from_registry p w tags s Hfrom) as (Hcount & Hfit & Htags).
    set (slots := m_textureIDs (this s)) in *.
    destruct (FindTextureSlot_while_scan s tag
                (firstn (List.length tags) slots) [] (skipn (List.length tags) slots))
      as (r & Hrun & Hr).
    { cbn [app]. symmetry. apply firstn_skipn. }
    rewrite length_firstn, Nat.min_l in Hrun by exact Hfit.
    rewrite Htags in Hr. cbn [List.length Nat.add Z.of_nat] in Hrun, Hr.
    exists r. split.
    - unfold FindTextureSlot, bind, get_this. cbv beta.
      rewrite Hcount, Z.sub_0_r, Nat2Z.id, Hrun. reflexivity.
    - destruct Hr as [Hnone|(k & Hk & Hat & Hbefore)]; [left; exact Hnone|].
      right. subst r. rewrite Nat2Z.id. repeat split; [lia|exact Hat|exact Hbefore]. }
  split; [apply Hgen|].
  intros ->. split.
  - destruct (Hgen "brick") as (r & Hrun & [[_ Hnot]|(Hpos & Hat & Hbefore)]).
    + exfalso. apply Hnot. cbn. auto.
    + rewrite Hrun. f_equal.
      destruct (Z.to_nat r) as [|[|n]] eqn:E; cbn in Hat.
      * discriminate.
      * lia.
      * exfalso. apply (Hbefore 1%nat); [lia|reflexivity].
  - destruct (Hgen "glass") as (r & Hrun & [[Hminus _]|(Hpos & Hat & _)]).
    + rewrite Hrun, Hminus. reflexivity.
    + exfalso. destruct (Z.to_nat r) as [|[|[|n]]]; cbn in Hat; discriminate.
Qed.

Lemma FindTextureSlot_first_match_witness :
  loaded_from (constructed (Object 1)) ["wood"; "brick"] wood_brick
  /\ FindTextureSlot "brick" wood_brick = Ok 1 wood_brick []
  /\ FindTextureSlot "glass" wood_brick = Ok (-1) wood_brick [].
Proof.
  assert (Hfrom : loaded_from (constructed (Object 1)) ["wood"; "brick"] wood_brick).
  { apply (loaded_next _ ["wood"]
             (state_after (CreateGLTexture (Some "wood.jpg") "wood") (constructed (Object 1)))
             (Some "brick.jpg") "brick" wood_brick
             (match CreateGLTexture (Some "brick.jpg") "brick"
                      (state_after (CreateGLTexture (Some "wood.jpg") "wood")
                                   (constructed (Object 1)))
              with Ok _ _ calls => calls | Undefined _ => [] end)).
    - apply (loaded_next _ [] (constructed (Object 1)) (Some "wood.jpg") "wood" _
               (match CreateGLTexture (Some "wood.jpg") "wood" (constructed (Object 1))
                with Ok _ _ calls => calls | Undefined _ => [] end)).
      + apply loaded_none.
      + reflexivity.
    - reflexivity. }
  split; [exact Hfrom|].
  apply (FindTextureSlot_first_match (Object 1) sample_world ["wood"; "brick"]
           wood_brick "brick" Hfrom).
  reflexivity.
Defined.

(** ** The object builders *)

Lemma returns_ret {A} s (a : A) : returns s (ret a).
Proof. now exists a, []. Qed.

Lemma returns_bind {A B} s (m : M A) (k : A -> M B) :
  returns s m -> (forall a, returns s (k a)) -> returns s (bind m k).
Proof.
  intros (a & c1 & Hm) Hk. destruct (Hk a) as (b & c2 & Hka).
  exists b, (c1 ++ c2). unfold bind. now rewrite Hm, Hka.
Qed.

Lemma returns_get_this s : returns s get_this.
Proof. now exists (this s), []. Qed.

Lemma returns_call s c : returns s (call c).
Proof. now exists tt, [c]. Qed.

Lemma returns_declare_material s : returns s declare_material.
Proof. now exists (indeterminate (world s)), []. Qed.

Lemma returns_via_shader s c :
  m_pShaderManager (this s) <> NULL -> returns s (via_shader c).
Proof.
  intros Hp. exists tt, [c]. unfold via_shader, bind, get_this. cbv beta.
  destruct (m_pShaderManager (this s)); [congruence|reflexivity].
Qed.

Lemma returns_FindTextureSlot s tag :
  (Z.to_nat (m_loadedTextures (this s)) <= List.length (m_textureIDs (this s)))%nat ->
  returns s (FindTextureSlot tag).
Proof.
  intros Hfit. set (n := Z.to_nat (m_loadedTextures (this s))) in *.
  destruct (FindTextureSlot_while_scan s tag
              (firstn n (m_textureIDs (this s))) [] (skipn n (m_textureIDs (this s))))
    as (r & Hrun & _).
  { cbn [app]. symmetry. apply firstn_skipn. }
  rewrite length_firstn, Nat.min_l in Hrun by exact Hfit.
  exists r, []. unfold FindTextureSlot, bind, get_this. cbv beta.
  rewrite Z.sub_0_r. fold n. cbn [List.length Z.of_nat] in Hrun.
  rewrite Hrun. reflexivity.
Qed.

Lemma returns_FindMaterial s tag material : returns s (FindMaterial tag material).
Proof.
  unfold FindMaterial. apply returns_bind; [apply returns_get_this|intro t].
  destruct (_ =? _); [apply returns_ret|].
  destruct (FindMaterial_while _ _ _). apply returns_ret.
Qed.

Lemma returns_bind_get {B} s (k : SceneManager -> M B) :
  returns s (k (this s)) -> returns s (bind get_this k).
Proof.
  intros (b & c & Hk). exists b, c. unfold bind, get_this. now rewrite Hk.
Qed.

Create HintDb returns.
#[local] Hint Resolve returns_ret returns_call returns_declare_material
  returns_FindMaterial returns_get_this : returns.

Ltac returns_step :=
  match goal with
  | |- returns ?s (bind get_this _) => apply returns_bind_get; cbv beta
  | |- returns _ (bind _ _) => apply returns_bind; [|intro]
  | |- returns _ (let '(_, _) := ?r in _) => destruct r
  | |- returns _ (if ?x then _ else _) => destruct x
  | |- returns _ _ => solve [auto with returns]
  end.

Section Composable.
Variable s : State.
Hypothesis Hcomposable : composable s.

Lemma returns_SetTransformations sc rx ry rz pos :
  returns s (SetTransformations sc rx ry rz pos).
Proof.
  unfold SetTransformations. cbv zeta. returns_step.
  destruct (m_pShaderManager (this s)) eqn:Hp; [auto with returns|].
  apply returns_via_shader. congruence.
Qed.

Lemma returns_SetShaderColor r g b a : returns s (SetShaderColor r g b a).
Proof.
  unfold SetShaderColor. cbv zeta. returns_step.
  destruct (m_pShaderManager (this s)) eqn:Hp; [auto with returns|].
  repeat returns_step; apply returns_via_shader; congruence.
Qed.

Lemma returns_SetShaderTexture tag : returns s (SetShaderTexture tag).
Proof.
  unfold SetShaderTexture. returns_step.
  destruct (m_pShaderManager (this s)) eqn:Hp; [auto with returns|].
  repeat returns_step;
    try (apply returns_via_shader; congruence).
  apply returns_FindTextureSlot, Hcomposable.
Qed.

Lemma returns_SetTextureUVScale u v : returns s (SetTextureUVScale u v).
Proof.
  unfold SetTextureUVScale. returns_step.
  destruct (m_pShaderManager (this s)) eqn:Hp; [auto with returns|].
  apply returns_via_shader. congruence.
Qed.

Lemma returns_SetShaderMaterial tag : returns s (SetShaderMaterial tag).
Proof.
  unfold SetShaderMaterial. returns_step.
  destruct Hcomposable as (_ & [Hp|Hempty]).
  - repeat returns_step; apply returns_via_shader; exact Hp.
  - rewrite Hempty. cbn. auto with returns.
Qed.

(** In a composable state every object builder returns. *)
Lemma build_returns b : exists calls, build b s = Ok tt s calls.
Proof.
  assert (H : returns s (build b)).
  { pose proof returns_SetTransformations. pose proof returns_SetShaderTexture.
    pose proof returns_SetTextureUVScale. pose proof returns_SetShaderMaterial.
    destruct b; cbv [build MakeDesk MakeBackWall MakeDeskStand MakeMug MakeBooks
                     MakeLamp MakePenHolder]; repeat returns_step. }
  destruct H as ([] & calls & H). now exists calls.
Qed.
End Composable.

(** ** More about the texture registry *)

Lemma CreateGLTexture_register_run textureID tag s :
  in_bounds (m_textureIDs (this s)) (m_loadedTextures (this s)) = true ->
  CreateGLTexture_register textureID tag s =
    Ok true
       {| this := registered (this s) (Texture.Build tag textureID);
          world := world s |}
       [glGenerateMipmap GL_TEXTURE_2D; stbi_image_free; glBindTexture GL_TEXTURE_2D 0].
Proof.
  intros Hb.
  pose proof (proj1 (in_bounds_spec _ _) Hb) as Hrange.
  destruct (nth_error (m_textureIDs (this s)) (Z.to_nat (m_loadedTextures (this s))))
    as [slot|] eqn:Hslot.
  2:{ apply nth_error_None in Hslot. lia. }
  unfold CreateGLTexture_register, load_slot, store_slot, set_loadedTextures,
    bind, call, get_this, put_this, ret, undefined.
  cbn [this world m_textureIDs m_loadedTextures m_pShaderManager m_objectMaterials].
  rewrite Hb, Hslot.
  cbn [this world m_textureIDs m_loadedTextures m_pShaderManager m_objectMaterials].
  rewrite Hb.
  cbn [this world m_textureIDs m_loadedTextures m_pShaderManager m_objectMaterials].
  assert (Hb' : in_bounds (list_set (m_textureIDs (this s))
                             (Z.to_nat (m_loadedTextures (this s)))
                             (Texture.Build (Texture.tag slot) textureID))
                          (m_loadedTextures (this s)) = true).
  { apply in_bounds_spec. rewrite length_list_set. exact Hrange. }
  rewrite Hb'. rewrite nth_error_list_set by lia.
  cbn [this world m_textureIDs m_loadedTextures m_pShaderManager m_objectMaterials
       Texture.tag Texture.ID].
  rewrite Hb'. rewrite list_set_twice.
  reflexivity.
Qed.

Lemma CreateGLTexture_outcome_aux :
  forall (filename : option string) (tag : string) (s : State),
    in_bounds (m_textureIDs (this s)) (m_loadedTextures (this s)) = true ->
    exists s' calls,
      CreateGLTexture filename tag s = Ok (loadable (world s) filename) s' calls
      /\ this s' =
           (if loadable (world s) filename
            then registered (this s) (Texture.Build tag (gl_fresh (world s)))
            else this s)
      /\ stbi_load (world s') = stbi_load (world s)
      /\ indeterminate (world s') = indeterminate (world s).
Proof.
  intros filename tag s Hb.
  unfold CreateGLTexture, loadable.
  unfold bind at 1. cbn [call]. unfold bind at 1.
  destruct (stbi_load (world s) filename) as [img|] eqn:Hd.
  - unfold bind at 1. cbn [gen_texture].
    do 5 (unfold bind at 1; cbn [call]).
    destruct ((colorChannels img =? 3) && is_nonnull filename).
    + unfold bind at 1; cbn [call].
      rewrite CreateGLTexture_register_run by exact Hb.
      eexists _, _. split; [reflexivity|]. cbn. auto.
    + destruct (colorChannels img =? 4).
      * unfold bind at 1; cbn [call].
        rewrite CreateGLTexture_register_run by exact Hb.
        eexists _, _. split; [reflexivity|]. cbn. auto.
      * eexists _, _. split; [reflexivity|]. cbn. auto.
  - eexists _, _. split; [reflexivity|]. cbn. auto.
Qed.

(** X3. With a free slot, [CreateGLTexture] always returns; it answers
    [true] exactly when the file is loadable, then registers the tag with the
    name GL generated in the next free slot, and otherwise leaves the manager
    as it was.  The decoder and the uninitialised storage are not touched. *)
Theorem CreateGLTexture_outcome :
  forall (filename : option string) (tag : string) (s : State),
    in_bounds (m_textureIDs (this s)) (m_loadedTextures (this s)) = true ->
    exists s' calls,
      CreateGLTexture filename tag s = Ok (loadable (world s) filename) s' calls
      /\ this s' =
           (if loadable (world s) filename
            then registered (this s) (Texture.Build tag (gl_fresh (world s)))
            else this s)
      /\ stbi_load (world s') = stbi_load (world s)
      /\ indeterminate (world s') = indeterminate (world s).
Proof.
  intros filename tag s Hfree.
  apply CreateGLTexture_outcome_aux. exact Hfree.
Qed.

Lemma CreateGLTexture_outcome_witness :
  exists s' calls,
    CreateGLTexture (Some "wood.jpg") "wood" (constructed NULL) =
      Ok (loadable (world (constructed NULL)) (Some "wood.jpg")) s' calls
    /\ this s' =
         (if loadable (world (constructed NULL)) (Some "wood.jpg")
          then registered (this (constructed NULL))
                 (Texture.Build "wood" (gl_fresh (world (constructed NULL))))
          else this (constructed NULL))
    /\ stbi_load (world s') = stbi_load (world (constructed NULL))
    /\ indeterminate (world s') = indeterminate (world (constructed NULL)).
Proof.
  apply (CreateGLTexture_outcome (Some "wood.jpg") "wood" (constructed NULL)).
  reflexivity.
Defined.

Lemma CreateGLTexture_false_keeps_manager_aux :
  forall (filename : option string) (tag : string) (s s' : State) (calls : list Call),
    CreateGLTexture filename tag s = Ok false s' calls ->
    this s' = this s /\ loadable (world s) filename = false.
Proof.
  unfold CreateGLTexture, loadable. intros filename tag s s' calls H.
  bind_inv H. bind_inv H.
  destruct (stbi_load (world s) filename) as [img|].
  - do 6 bind_inv H.
    destruct ((colorChannels img =? 3) && is_nonnull filename).
    + bind_inv H. apply CreateGLTexture_register_Ok in H as (Hb & _). discriminate.
    + destruct (colorChannels img =? 4).
      * bind_inv H. apply CreateGLTexture_register_Ok in H as (Hb & _). discriminate.
      * inversion H. auto.
  - inversion H. auto.
Qed.

(** X1. A call of [CreateGLTexture] that answers [false] leaves every member
    of the manager as it was, and the file was not loadable. *)
Theorem CreateGLTexture_false_keeps_manager :
  forall (filename : option string) (tag : string) (s s' : State) (calls : list Call),
    CreateGLTexture filename tag s = Ok false s' calls ->
    this s' = this s /\ loadable (world s) filename = false.
Proof.
  intros filename tag s s' calls Hfalse.
  apply (CreateGLTexture_false_keeps_manager_aux filename tag s s' calls).
  exact Hfalse.
Qed.

Lemma CreateGLTexture_false_keeps_manager_witness :
  this (state_after (CreateGLTexture None "wood") (constructed NULL)) =
    this (constructed NULL)
  /\ loadable (world (constructed NULL)) None = false.
Proof.
  apply (CreateGLTexture_false_keeps_manager None "wood" (constructed NULL)
           (state_after (CreateGLTexture None "wood") (constructed NULL))
           [stbi_set_flip_vertically_on_load true]).
  reflexivity.
Defined.

(** X2. When the decoder yields an image and [CreateGLTexture] still answers
    [false] (an unsupported channel count), it has generated a GL texture
    name, yet it makes no call that frees the pixel buffer and none that
    deletes the texture. *)
Theorem CreateGLTexture_false_after_decode :
  forall (filename : option string) (tag : string) (s s' : State)
         (calls : list Call) (img : Image),
    stbi_load (world s) filename = Some img ->
    CreateGLTexture filename tag s = Ok false s' calls ->
    In (glGenTextures 1 (gl_fresh (world s))) calls
    /\ ~ In stbi_image_free calls
    /\ (forall n name, ~ In (glDeleteTextures n name) calls)
    /\ gl_fresh (world s') = gl_fresh (world s) + 1.
Proof.
  unfold CreateGLTexture. intros filename tag s s' calls img Hd H.
  bind_inv H. bind_inv H. rewrite Hd in H.
  do 6 bind_inv H.
  destruct ((colorChannels img =? 3) && is_nonnull filename).
  - bind_inv H. apply CreateGLTexture_register_Ok in H as (Hb & _). discriminate.
  - destruct (colorChannels img =? 4).
    + bind_inv H. apply CreateGLTexture_register_Ok in H as (Hb & _). discriminate.
    + inversion H; subst. cbn. repeat split.
      * auto.
      * intros Hin. repeat (destruct Hin as [Hin|Hin]; [discriminate|]). exact Hin.
      * intros n name Hin. repeat (destruct Hin as [Hin|Hin]; [discriminate|]). exact Hin.
Qed.

Lemma CreateGLTexture_false_after_decode_witness :
  In (glGenTextures 1 (gl_fresh (world grey_state)))
     [stbi_set_flip_vertically_on_load true; glGenTextures 1 1;
      glBindTexture GL_TEXTURE_2D 1;
      glTexParameteri GL_TEXTURE_2D GL_TEXTURE_WRAP_S GL_REPEAT;
      glTexParameteri GL_TEXTURE_2D GL_TEXTURE_WRAP_T GL_REPEAT;
      glTexParameteri GL_TEXTURE_2D GL_TEXTURE_MIN_FILTER GL_LINEAR;
      glTexParameteri GL_TEXTURE_2D GL_TEXTURE_MAG_FILTER GL_LINEAR]
  /\ gl_fresh (world (state_after (CreateGLTexture (Some "grey.png") "grey") grey_state)) =
       gl_fresh (world grey_state) + 1.
Proof.
  destruct (CreateGLTexture_false_after_decode (Some "grey.png") "grey" grey_state
              (state_after (CreateGLTexture (Some "grey.png") "grey") grey_state)
              [stbi_set_flip_vertically_on_load true; glGenTextures 1 1;
               glBindTexture GL_TEXTURE_2D 1;
               glTexParameteri GL_TEXTURE_2D GL_TEXTURE_WRAP_S GL_REPEAT;
               glTexParameteri GL_TEXTURE_2D GL_TEXTURE_WRAP_T GL_REPEAT;
               glTexParameteri GL_TEXTURE_2D GL_TEXTURE_MIN_FILTER GL_LINEAR;
               glTexParameteri GL_TEXTURE_2D GL_TEXTURE_MAG_FILTER GL_LINEAR]
              {| width := 8; height := 8; colorChannels := 1 |})
    as (Hgen & _ & _ & Hfresh).
  - reflexivity.
  - reflexivity.
  - split; [exact Hgen|exact Hfresh].
Defined.

(** *** Lookups in an arbitrary registry *)

Lemma bind_quiet {A B} (m : M A) (k : A -> M B) s a :
  m s = Ok a s [] -> bind m k s = k a s.
Proof.
  intros Hm. unfold bind. rewrite Hm. now destruct (k a s).
Qed.

(** Both scans over the slots [rest] that follow the slots [pre]: they stop
    at the same slot, or both run off the end. *)
Lemma texture_scans s tag rest :
  forall pre tail,
    m_textureIDs (this s) = pre ++ rest ++ tail ->
    (FindTextureSlot_while (List.length rest) tag (Z.of_nat (List.length pre)) s = Ok (-1) s []
     /\ FindTextureID_while (List.length rest) tag (Z.of_nat (List.length pre)) s = Ok (-1) s []
     /\ ~ In tag (map Texture.tag rest))
    \/ exists k slot,
         FindTextureSlot_while (List.length rest) tag (Z.of_nat (List.length pre)) s =
           Ok (Z.of_nat (List.length pre + k)) s []
         /\ FindTextureID_while (List.length rest) tag (Z.of_nat (List.length pre)) s =
              Ok (to_int (Texture.ID slot)) s []
         /\ nth_error rest k = Some slot
         /\ Texture.tag slot = tag
         /\ forall j, (j < k)%nat -> nth_error (map Texture.tag rest) j <> Some tag.
Proof.
  induction rest as [|x rest IH]; intros pre tail Hslots.
  - left. repeat split. intros [].
  - cbn [FindTextureSlot_while FindTextureID_while List.length].
    assert (Hload : load_slot (Z.of_nat (List.length pre)) s = Ok x s []).
    { unfold load_slot, bind, get_this. cbv beta.
      assert (Hb : in_bounds (m_textureIDs (this s)) (Z.of_nat (List.length pre)) = true).
      { apply in_bounds_spec. rewrite Hslots, !length_app. cbn [List.length]. lia. }
      rewrite Hb, Nat2Z.id, Hslots, nth_error_app2 by lia.
      rewrite Nat.sub_diag. reflexivity. }
    rewrite !(bind_quiet _ _ _ _ Hload).
    destruct (String.eqb_spec (Texture.tag x) tag) as [Heq|Hneq].
    + right. exists 0%nat, x. rewrite Nat.add_0_r.
      repeat split; try reflexivity; auto; intros j Hj; lia.
    + specialize (IH (pre ++ [x]) tail).
      rewrite <- !app_assoc in IH. specialize (IH Hslots).
      rewrite length_app in IH. cbn [List.length] in IH.
      replace (Z.of_nat (List.length pre + 1)) with (Z.of_nat (List.length pre) + 1) in IH by lia.
      destruct IH as [(Hslot & Hid & Hnot)|(k & slot & Hslot & Hid & Hat & Htag & Hbefore)].
      * left. rewrite Hslot, Hid. repeat split.
        cbn. intros [E|Hin]; [congruence|tauto].
      * right. exists (S k), slot. rewrite Hslot, Hid.
        repeat split; auto.
        -- do 2 f_equal. lia.
        -- intros [|j] Hj; cbn; [congruence|]. apply Hbefore. lia.
Qed.

Lemma occupied_split t :
  fits t ->
  m_textureIDs t =
    [] ++ firstn (Z.to_nat (m_loadedTextures t)) (m_textureIDs t)
       ++ skipn (Z.to_nat (m_loadedTextures t)) (m_textureIDs t)
  /\ List.length (firstn (Z.to_nat (m_loadedTextures t)) (m_textureIDs t)) =
       Z.to_nat (m_loadedTextures t).
Proof.
  intros [Hlo Hhi]. split.
  - cbn [app]. symmetry. apply firstn_skipn.
  - rewrite length_firstn. apply Nat.min_l. lia.
Qed.

Lemma to_int_small h : 0 <= h < 2 ^ 31 -> to_int h = h.
Proof.
  intros Hh. unfold to_int.
  rewrite Z.mod_small by (change (2 ^ 32) with (2 ^ 31 + 2 ^ 31); lia). lia.
Qed.

Lemma texture_lookups_agree_aux :
  forall (tag : string) (s : State),
    fits (this s) ->
    exists r id,
      FindTextureSlot tag s = Ok r s []
      /\ FindTextureID tag s = Ok id s []
      /\ first_occurrence (occupied_tags (this s)) tag r
      /\ -1 <= r < m_loadedTextures (this s)
      /\ (r = -1 -> id = -1)
      /\ (0 <= r ->
          exists handle,
            nth_error (occupied_IDs (this s)) (Z.to_nat r) = Some handle
            /\ id = to_int handle
            /\ (0 <= handle < 2 ^ 31 -> id = handle)).
Proof.
  intros tag s Hfits.
  destruct (occupied_split _ Hfits) as [Hsplit Hlen].
  pose proof Hfits as [Hlo Hhi].
  unfold FindTextureSlot, FindTextureID, bind, get_this. cbv beta.
  rewrite Z.sub_0_r.
  destruct (texture_scans s tag _ _ _ Hsplit)
    as [(Hslot & Hid & Hnot)|(k & slot & Hslot & Hid & Hat & Htag & Hbefore)];
    rewrite Hlen in Hslot, Hid; cbn [List.length Z.of_nat Nat.add] in Hslot, Hid;
    rewrite Hslot, Hid.
  - exists (-1), (-1). repeat split; try lia.
    left. split; [reflexivity|exact Hnot].
  - assert (Hk : (k < Z.to_nat (m_loadedTextures (this s)))%nat).
    { rewrite <- Hlen. apply nth_error_Some. congruence. }
    exists (Z.of_nat k), (to_int (Texture.ID slot)).
    split; [reflexivity|]. split; [reflexivity|]. split; [|split; [lia|split; [lia|]]].
    + right. rewrite Nat2Z.id. repeat split; [lia| |exact Hbefore].
      unfold occupied_tags. rewrite nth_error_map, Hat. cbn. now rewrite Htag.
    + intros _. exists (Texture.ID slot). rewrite Nat2Z.id. unfold occupied_IDs.
      rewrite nth_error_map, Hat. repeat split. apply to_int_small.
Qed.

(** X4. In a registry whose count fits the array both lookups return
    without a call or a change; [FindTextureSlot] answers the position of
    the first occupied slot carrying the tag, or -1 when none does, so always
    a value from -1 up to, but not including, [m_loadedTextures]; and
    [FindTextureID] answers -1 with it, or else the handle stored in that
    very slot converted from [GLuint] to [int]: the handle itself when it is
    below 2^31, a negative number otherwise. *)
Theorem texture_lookups_agree :
  forall (tag : string) (s : State),
    fits (this s) ->
    exists r id,
      FindTextureSlot tag s = Ok r s []
      /\ FindTextureID tag s = Ok id s []
      /\ first_occurrence (occupied_tags (this s)) tag r
      /\ -1 <= r < m_loadedTextures (this s)
      /\ (r = -1 -> id = -1)
      /\ (0 <= r ->
          exists handle,
            nth_error (occupied_IDs (this s)) (Z.to_nat r) = Some handle
            /\ id = to_int handle
            /\ (0 <= handle < 2 ^ 31 -> id = handle)).
Proof.
  intros tag s Hfits.
  apply texture_lookups_agree_aux. exact Hfits.
Qed.

Lemma texture_lookups_agree_witness :
  exists r id,
    FindTextureSlot "brick" wood_brick = Ok r wood_brick []
    /\ FindTextureID "brick" wood_brick = Ok id wood_brick []
    /\ first_occurrence (occupied_tags (this wood_brick)) "brick" r
    /\ -1 <= r < m_loadedTextures (this wood_brick)
    /\ (r = -1 -> id = -1)
    /\ (0 <= r ->
        exists handle,
          nth_error (occupied_IDs (this wood_brick)) (Z.to_nat r) = Some handle
          /\ id = to_int handle
          /\ (0 <= handle < 2 ^ 31 -> id = handle)).
Proof.
  apply (texture_lookups_agree "brick" wood_brick).
  split; vm_compute; discriminate.
Defined.

(** *** Loading and looking up *)

Lemma first_occurrence_functional tags tag r r' :
  first_occurrence tags tag r -> first_occurrence tags tag r' -> r = r'.
Proof.
  intros [[-> Hnot]|(Hpos & Hat & Hbefore)] [[-> Hnot']|(Hpos' & Hat' & Hbefore')].
  - reflexivity.
  - exfalso. apply Hnot. eapply nth_error_In. exact Hat'.
  - exfalso. apply Hnot'. eapply nth_error_In. exact Hat.
  - destruct (Nat.lt_trichotomy (Z.to_nat r) (Z.to_nat r')) as [Hlt|[Heq|Hgt]].
    + exfalso. apply (Hbefore' _ Hlt). exact Hat.
    + lia.
    + exfalso. apply (Hbefore _ Hgt). exact Hat'.
Qed.

Lemma first_occurrence_app tags more tag r :
  In tag tags ->
  first_occurrence (tags ++ more) tag r -> first_occurrence tags tag r.
Proof.
  intros Hin [[_ Hnot]|(Hpos & Hat & Hbefore)].
  - exfalso. apply Hnot. apply in_or_app. now left.
  - right. apply In_nth_error in Hin as (i & Hi).
    assert (Hi' : (i < List.length tags)%nat) by (apply nth_error_Some; congruence).
    assert (Hk : (Z.to_nat r < List.length tags)%nat).
    { destruct (Nat.lt_ge_cases (Z.to_nat r) (List.length tags)) as [H|H]; [exact H|].
      exfalso. apply (Hbefore i); [lia|]. now rewrite nth_error_app1. }
    repeat split; [exact Hpos| |].
    + now rewrite nth_error_app1 in Hat.
    + intros j Hj Hat'. apply (Hbefore j Hj). rewrite nth_error_app1 by lia. exact Hat'.
Qed.

Lemma registered_occupied t slot :
  in_bounds (m_textureIDs t) (m_loadedTextures t) = true ->
  fits (registered t slot)
  /\ occupied_tags (registered t slot) = occupied_tags t ++ [Texture.tag slot]
  /\ occupied_IDs (registered t slot) = occupied_IDs t ++ [Texture.ID slot].
Proof.
  intros Hb. apply in_bounds_spec in Hb.
  unfold fits, occupied_tags, occupied_IDs, registered.
  cbn [m_loadedTextures m_textureIDs].
  rewrite length_list_set.
  replace (Z.to_nat (m_loadedTextures t + 1)) with (S (Z.to_nat (m_loadedTextures t))) by lia.
  rewrite firstn_list_set_next by lia.
  rewrite !map_app. cbn [map]. repeat split; lia.
Qed.

Lemma occupied_lengths t :
  fits t ->
  List.length (occupied_tags t) = Z.to_nat (m_loadedTextures t)
  /\ List.length (occupied_IDs t) = Z.to_nat (m_loadedTextures t).
Proof.
  intros Hfits. destruct (occupied_split t Hfits) as [_ Hlen].
  unfold occupied_tags, occupied_IDs. now rewrite !length_map.
Qed.

(** A successful load, spelled out. *)
Lemma CreateGLTexture_true_registered filename tag s s' calls :
  CreateGLTexture filename tag s = Ok true s' calls ->
  in_bounds (m_textureIDs (this s)) (m_loadedTextures (this s)) = true
  /\ this s' = registered (this s) (Texture.Build tag (gl_fresh (world s))).
Proof.
  intros H. pose proof (CreateGLTexture_true _ _ _ _ _ H) as [Hb _].
  split; [exact Hb|].
  destruct (CreateGLTexture_outcome_aux filename tag s Hb) as (s'' & calls'' & Hrun & Hthis & _).
  rewrite H in Hrun. inversion Hrun as [[Hload Hs Hc]].
  rewrite <- Hload in Hthis. now subst s''.
Qed.

(** X5. After a successful load of a tag that no occupied slot carried,
    [FindTextureSlot] finds the tag in the slot that was the next free one
    and [FindTextureID] answers the name GL generated for it, converted from
    [GLuint] to [int]: the name itself when it is below 2^31. *)
Theorem load_then_find :
  forall (filename : option string) (tag : string) (s s' : State) (calls : list Call),
    CreateGLTexture filename tag s = Ok true s' calls ->
    0 <= m_loadedTextures (this s) ->
    ~ In tag (occupied_tags (this s)) ->
    FindTextureSlot tag s' = Ok (m_loadedTextures (this s)) s' []
    /\ FindTextureID tag s' = Ok (to_int (gl_fresh (world s))) s' []
    /\ (0 <= gl_fresh (world s) < 2 ^ 31 ->
        FindTextureID tag s' = Ok (gl_fresh (world s)) s' []).
Proof.
  intros filename tag s s' calls Hload Hpos Hnew.
  apply CreateGLTexture_true_registered in Hload as [Hb Hthis].
  destruct (registered_occupied (this s) (Texture.Build tag (gl_fresh (world s))) Hb)
    as (Hfits' & Htags' & Hids').
  rewrite <- Hthis in Hfits', Htags', Hids'. cbn [Texture.tag Texture.ID] in Htags', Hids'.
  assert (Hfits : fits (this s)).
  { apply in_bounds_spec in Hb. unfold fits. lia. }
  destruct (occupied_lengths _ Hfits) as [Hlt Hli].
  destruct (texture_lookups_agree_aux tag s' Hfits')
    as (r & id & Hslot & Hid & Hfirst & _ & _ & Hhandle).
  assert (Hr : r = m_loadedTextures (this s)).
  { rewrite Htags' in Hfirst.
    destruct Hfirst as [[_ Hnot]|(Hr0 & Hat & Hbefore)].
    - exfalso. apply Hnot. apply in_or_app. right. now left.
    - destruct (Nat.lt_trichotomy (Z.to_nat r) (List.length (occupied_tags (this s))))
        as [Hlt'|[Heq|Hgt]].
      + exfalso. apply Hnew. rewrite nth_error_app1 in Hat by exact Hlt'.
        eapply nth_error_In. exact Hat.
      + lia.
      + exfalso.
        assert (Hnone : nth_error (occupied_tags (this s) ++ [tag]) (Z.to_nat r) = None).
        { apply nth_error_None. rewrite length_app. cbn [List.length]. lia. }
        congruence. }
  subst r.
  destruct (Hhandle Hpos) as (handle & Hat & Hconv & _).
  rewrite Hids', <- Hli in Hat.
  rewrite nth_error_app2, Nat.sub_diag in Hat by lia.
  cbn in Hat. inversion Hat; subst handle.
  rewrite Hslot, Hid, Hconv. repeat split.
  intros Hsmall. now rewrite (to_int_small _ Hsmall).
Qed.

Lemma load_then_find_witness :
  FindTextureSlot "wood"
    (state_after (CreateGLTexture (Some "wood.jpg") "wood") (constructed NULL)) =
    Ok (m_loadedTextures (this (constructed NULL)))
       (state_after (CreateGLTexture (Some "wood.jpg") "wood") (constructed NULL)) []
  /\ FindTextureID "wood"
       (state_after (CreateGLTexture (Some "wood.jpg") "wood") (constructed NULL)) =
       Ok (gl_fresh (world (constructed NULL)))
          (state_after (CreateGLTexture (Some "wood.jpg") "wood") (constructed NULL)) [].
Proof.
  destruct (load_then_find (Some "wood.jpg") "wood" (constructed NULL)
              (state_after (CreateGLTexture (Some "wood.jpg") "wood") (constructed NULL))
              (match CreateGLTexture (Some "wood.jpg") "wood" (constructed NULL) with
               | Ok _ _ c => c | Undefined _ => [] end))
    as (Hslot & _ & Hid).
  - reflexivity.
  - vm_compute. discriminate.
  - vm_compute. intros [].
  - split; [exact Hslot|]. apply Hid. split; vm_compute; [discriminate|reflexivity].
Defined.

(** X6. A load never disturbs what is registered: for a tag that an occupied
    slot carried before the call, both lookups answer after the call, be it
    successful or not, what they answered before.  In particular loading a
    tag a second time does not move its lookups to the new slot. *)
Theorem load_keeps_lookups :
  forall (filename : option string) (tag tag' : string) (b : bool)
         (s s' : State) (calls : list Call),
    fits (this s) ->
    CreateGLTexture filename tag s = Ok b s' calls ->
    In tag' (occupied_tags (this s)) ->
    exists r id,
      0 <= r
      /\ FindTextureSlot tag' s = Ok r s [] /\ FindTextureSlot tag' s' = Ok r s' []
      /\ FindTextureID tag' s = Ok id s [] /\ FindTextureID tag' s' = Ok id s' [].
Proof.
  intros filename tag tag' b s s' calls Hfits Hload Hin.
  destruct (texture_lookups_agree_aux tag' s Hfits)
    as (r & id & Hslot & Hid & Hfirst & Hrange & _ & Hhandle).
  assert (Hr0 : 0 <= r).
  { destruct Hfirst as [[_ Hnot]|(Hr0 & _)]; [contradiction|exact Hr0]. }
  specialize (Hhandle Hr0).
  destruct (occupied_lengths _ Hfits) as [Hlt Hli].
  assert (Hafter : fits (this s')
                   /\ (exists more, occupied_tags (this s') = occupied_tags (this s) ++ more)
                   /\ (exists more, occupied_IDs (this s') = occupied_IDs (this s) ++ more)).
  { destruct b.
    - apply CreateGLTexture_true_registered in Hload as [Hb Hthis].
      destruct (registered_occupied (this s) (Texture.Build tag (gl_fresh (world s))) Hb)
        as (Hfits' & Htags' & Hids').
      rewrite Hthis. repeat split; [apply Hfits'|apply Hfits'|eauto|eauto].
    - apply CreateGLTexture_false_keeps_manager_aux in Hload as [Hthis _].
      rewrite Hthis. repeat split; try apply Hfits; exists []; now rewrite app_nil_r. }
  destruct Hafter as (Hfits' & (moret & Htags') & (morei & Hids')).
  destruct (texture_lookups_agree_aux tag' s' Hfits')
    as (r' & id' & Hslot' & Hid' & Hfirst' & _ & _ & Hhandle').
  rewrite Htags' in Hfirst'. apply first_occurrence_app in Hfirst'; [|exact Hin].
  pose proof (first_occurrence_functional _ _ _ _ Hfirst Hfirst') as <-.
  destruct Hhandle as (handle & Hat & Hconv & _).
  destruct (Hhandle' Hr0) as (handle' & Hat' & Hconv' & _).
  rewrite Hids' in Hat'.
  rewrite nth_error_app1 in Hat' by lia.
  assert (handle' = handle) by congruence. subst handle'.
  rewrite Hconv in Hid. rewrite Hconv' in Hid'.
  exists r, (to_int handle). repeat split; assumption.
Qed.

Lemma load_keeps_lookups_witness :
  exists r id,
    0 <= r
    /\ FindTextureSlot "wood" wood_brick = Ok r wood_brick []
    /\ FindTextureSlot "wood"
         (state_after (CreateGLTexture (Some "other.jpg") "wood") wood_brick) =
         Ok r (state_after (CreateGLTexture (Some "other.jpg") "wood") wood_brick) []
    /\ FindTextureID "wood" wood_brick = Ok id wood_brick []
    /\ FindTextureID "wood"
         (state_after (CreateGLTexture (Some "other.jpg") "wood") wood_brick) =
         Ok id (state_after (CreateGLTexture (Some "other.jpg") "wood") wood_brick) [].
Proof.
  apply (load_keeps_lookups (Some "other.jpg") "wood" "wood" true wood_brick
           (state_after (CreateGLTexture (Some "other.jpg") "wood") wood_brick)
           (match CreateGLTexture (Some "other.jpg") "wood" wood_brick with
            | Ok _ _ c => c | Undefined _ => [] end)).
  - split; vm_compute; discriminate.
  - reflexivity.
  - vm_compute. auto.
Defined.


(** *** Binding and teardown *)

Lemma load_slot_at s pre x more :
  m_textureIDs (this s) = pre ++ x :: more ->
  load_slot (Z.of_nat (List.length pre)) s = Ok x s [].
Proof.
  intros Hslots. unfold load_slot, bind, get_this. cbv beta.
  assert (Hb : in_bounds (m_textureIDs (this s)) (Z.of_nat (List.length pre)) = true).
  { apply in_bounds_spec. rewrite Hslots, !length_app. cbn [List.length]. lia. }
  rewrite Hb, Nat2Z.id, Hslots, nth_error_app2 by lia.
  rewrite Nat.sub_diag. reflexivity.
Qed.

Lemma BindGLTextures_loop s rest :
  forall pre tail,
    m_textureIDs (this s) = pre ++ rest ++ tail ->
    for_loop (List.length rest) (Z.of_nat (List.length pre))
      (fun i =>
         call (glActiveTexture i) ;;
         slot <- load_slot i ;;
         call (glBindTexture GL_TEXTURE_2D (Texture.ID slot))) s =
      Ok tt s (unit_bindings (Z.of_nat (List.length pre)) (map Texture.ID rest)).
Proof.
  induction rest as [|x rest IH]; intros pre tail Hslots.
  - reflexivity.
  - cbn [for_loop List.length map unit_bindings].
    specialize (IH (pre ++ [x]) tail).
    rewrite <- !app_assoc in IH. specialize (IH Hslots).
    rewrite length_app in IH. cbn [List.length] in IH.
    replace (Z.of_nat (List.length pre + 1)) with (Z.of_nat (List.length pre) + 1) in IH by lia.
    unfold bind at 1. unfold bind at 1. cbn [call].
    rewrite (bind_quiet _ _ _ _ (load_slot_at s pre x (rest ++ tail) Hslots)).
    cbn [call]. rewrite IH. reflexivity.
Qed.

Lemma BindGLTextures_slot_to_unit_aux :
  forall s : State,
    fits (this s) ->
    BindGLTextures s = Ok tt s (unit_bindings 0 (occupied_IDs (this s))).
Proof.
  intros s Hfits.
  destruct (occupied_split _ Hfits) as [Hsplit Hlen].
  unfold BindGLTextures. rewrite (bind_quiet _ _ _ _ (eq_refl : get_this s = Ok (this s) s [])).
  pose proof (BindGLTextures_loop s _ _ _ Hsplit) as Hloop.
  rewrite Hlen in Hloop. exact Hloop.
Qed.

(** X8. In a registry whose count fits the array, [BindGLTextures] returns
    without changing anything and its calls are, for each occupied slot in
    order, [glActiveTexture] of the unit with the slot's index followed by
    [glBindTexture] of the slot's handle: slot i goes to unit i. *)
Theorem BindGLTextures_slot_to_unit :
  forall s : State,
    fits (this s) ->
    BindGLTextures s = Ok tt s (unit_bindings 0 (occupied_IDs (this s))).
Proof.
  intros s Hfits.
  apply BindGLTextures_slot_to_unit_aux. exact Hfits.
Qed.

Lemma BindGLTextures_slot_to_unit_witness :
  BindGLTextures wood_brick =
    Ok tt wood_brick
       [glActiveTexture 0; glBindTexture GL_TEXTURE_2D 1;
        glActiveTexture 1; glBindTexture GL_TEXTURE_2D 2].
Proof.
  apply (BindGLTextures_slot_to_unit wood_brick).
  split; vm_compute; discriminate.
Defined.

Lemma list_set_middle {A} (pre : list A) x more y :
  list_set (pre ++ x :: more) (List.length pre) y = pre ++ y :: more.
Proof. induction pre as [|h pre IH]; simpl; [reflexivity|now rewrite IH]. Qed.

Lemma renamed_facts rest :
  forall g,
    List.length (renamed rest g) = List.length rest
    /\ map Texture.tag (renamed rest g) = map Texture.tag rest
    /\ map Texture.ID (renamed rest g) = names_from g (List.length rest).
Proof.
  induction rest as [|x rest IH]; intro g; cbn; [auto|].
  destruct (IH (g + 1)) as (Hl & Ht & Hi). now rewrite Hl, Ht, Hi.
Qed.

Lemma DestroyGLTextures_run rest :
  forall pre tail s,
    m_textureIDs (this s) = pre ++ rest ++ tail ->
    exists s',
      for_loop (List.length rest) (Z.of_nat (List.length pre))
        (fun i =>
           slot <- load_slot i ;;
           name <- gen_texture ;;
           store_slot i (Texture.Build (Texture.tag slot) name)) s =
        Ok tt s' (map (glGenTextures 1) (names_from (gl_fresh (world s)) (List.length rest)))
      /\ m_textureIDs (this s') = pre ++ renamed rest (gl_fresh (world s)) ++ tail
      /\ m_loadedTextures (this s') = m_loadedTextures (this s)
      /\ m_pShaderManager (this s') = m_pShaderManager (this s)
      /\ m_objectMaterials (this s') = m_objectMaterials (this s)
      /\ gl_fresh (world s') = gl_fresh (world s) + Z.of_nat (List.length rest)
      /\ stbi_load (world s') = stbi_load (world s)
      /\ indeterminate (world s') = indeterminate (world s).
Proof.
  induction rest as [|x rest IH]; intros pre tail s Hslots.
  - exists s. cbn. rewrite Z.add_0_r. repeat split. exact Hslots.
  - cbn [for_loop List.length names_from renamed map].
    set (g := gl_fresh (world s)).
    set (s1 := {| this := this s;
                  world := {| stbi_load := stbi_load (world s);
                              gl_fresh := g + 1;
                              indeterminate := indeterminate (world s) |} |}).
    set (s2 := {| this := {| m_pShaderManager := m_pShaderManager (this s);
                             m_textureIDs := pre ++ Texture.Build (Texture.tag x) g :: rest ++ tail;
                             m_loadedTextures := m_loadedTextures (this s);
                             m_objectMaterials := m_objectMaterials (this s) |};
                  world := world s1 |}).
    assert (Hbody :
              (slot <- load_slot (Z.of_nat (List.length pre)) ;;
               name <- gen_texture ;;
               store_slot (Z.of_nat (List.length pre))
                          (Texture.Build (Texture.tag slot) name)) s =
              Ok tt s2 [glGenTextures 1 g]).
    { rewrite (bind_quiet _ _ _ _ (load_slot_at s pre x (rest ++ tail) Hslots)).
      unfold bind at 1. cbn [gen_texture]. fold g. fold s1.
      unfold store_slot, bind, get_this, put_this. cbv beta.
      assert (Hb : in_bounds (m_textureIDs (this s1)) (Z.of_nat (List.length pre)) = true).
      { apply in_bounds_spec. cbn [s1 this]. rewrite Hslots, !length_app.
        cbn [List.length]. lia. }
      rewrite Hb. cbn [s1 this world]. rewrite Hslots, Nat2Z.id.
      change ((x :: rest) ++ tail) with (x :: (rest ++ tail)).
      rewrite list_set_middle. reflexivity. }
    destruct (IH (pre ++ [Texture.Build (Texture.tag x) g]) tail s2) as (s' & Hrun & Hrest).
    { cbn [s2 this m_textureIDs]. now rewrite <- app_assoc. }
    rewrite length_app in Hrun. cbn [List.length] in Hrun.
    replace (Z.of_nat (List.length pre + 1)) with (Z.of_nat (List.length pre) + 1) in Hrun by lia.
    exists s'. split.
    + unfold bind at 1. rewrite Hbody, Hrun. reflexivity.
    + destruct Hrest as (Hs & Hn & Hp & Hm & Hg & Hd & Hi).
      cbn [s2 s1 this world m_loadedTextures m_pShaderManager m_objectMaterials
           gl_fresh stbi_load indeterminate] in *.
      rewrite Hs, <- app_assoc. repeat split; auto. lia.
Qed.

Lemma firstn_exact {A} (l more : list A) n :
  List.length l = n -> firstn n (l ++ more) = l.
Proof.
  intros <-. rewrite firstn_app, Nat.sub_diag, firstn_all. cbn. apply app_nil_r.
Qed.

(** X9. In a registry whose count fits the array, [DestroyGLTextures]
    returns; its calls are one [glGenTextures] per occupied slot, asking for
    the next unused names; afterwards the occupied slots carry the same tags
    but these new names as handles, the count of occupied slots is what it
    was, and no other member has changed. *)
Theorem DestroyGLTextures_effect :
  forall s : State,
    fits (this s) ->
    exists s',
      DestroyGLTextures s =
        Ok tt s' (map (glGenTextures 1)
                      (names_from (gl_fresh (world s))
                                  (Z.to_nat (m_loadedTextures (this s)))))
      /\ occupied_tags (this s') = occupied_tags (this s)
      /\ occupied_IDs (this s') =
           names_from (gl_fresh (world s)) (Z.to_nat (m_loadedTextures (this s)))
      /\ m_loadedTextures (this s') = m_loadedTextures (this s)
      /\ m_pShaderManager (this s') = m_pShaderManager (this s)
      /\ m_objectMaterials (this s') = m_objectMaterials (this s).
Proof.
  intros s Hfits.
  destruct (occupied_split _ Hfits) as [Hsplit Hlen].
  destruct (DestroyGLTextures_run _ _ _ s Hsplit)
    as (s' & Hrun & Hslots & Hcount & Hp & Hm & _).
  rewrite Hlen in Hrun. cbn [List.length Z.of_nat app] in Hrun, Hslots.
  destruct (renamed_facts (firstn (Z.to_nat (m_loadedTextures (this s)))
                                  (m_textureIDs (this s))) (gl_fresh (world s)))
    as (Hl & Ht & Hi).
  rewrite Hlen in Hl, Hi.
  exists s'. split.
  - unfold DestroyGLTextures.
    rewrite (bind_quiet _ _ _ _ (eq_refl : get_this s = Ok (this s) s [])).
    exact Hrun.
  - unfold occupied_tags, occupied_IDs.
    rewrite Hcount, Hslots, (firstn_exact _ _ _ Hl), Ht, Hi. auto.
Qed.

Lemma DestroyGLTextures_effect_witness :
  exists s',
    DestroyGLTextures wood_brick = Ok tt s' [glGenTextures 1 3; glGenTextures 1 4]
    /\ occupied_tags (this s') = ["wood"; "brick"]
    /\ occupied_IDs (this s') = [3; 4]
    /\ m_loadedTextures (this s') = 2
    /\ m_pShaderManager (this s') = Object 1
    /\ m_objectMaterials (this s') = [].
Proof.
  apply (DestroyGLTextures_effect wood_brick).
  split; vm_compute; discriminate.
Defined.

(** ** More about the material registry *)

Lemma FindMaterial_while_result rest tag material :
  forall bFound found,
    FindMaterial_while rest tag material = (bFound, found) ->
    Material.tag found = Material.tag material
    /\ ((bFound = false /\ found = material
         /\ forall m, In m rest -> Material.tag m <> tag)
        \/ (bFound = true
            /\ exists before first after,
                 rest = before ++ first :: after
                 /\ (forall m, In m before -> Material.tag m <> tag)
                 /\ Material.tag first = tag
                 /\ coefficients found = coefficients first)).
Proof.
  induction rest as [|m rest IH]; intros bFound found H; cbn in H.
  - inversion H; subst. split; [reflexivity|]. left. repeat split. intros m [].
  - destruct (String.eqb_spec (Material.tag m) tag) as [Heq|Hneq].
    + inversion H; subst. split; [reflexivity|]. right. split; [reflexivity|].
      exists [], m, rest. repeat split. intros m' [].
    + destruct (IH _ _ H) as [Htag [(Hb & Hf & Hmiss)|(Hb & before & first & after & Hrest & Hmiss & Hfirst & Hco)]].
      * split; [exact Htag|]. left. repeat split; auto.
        intros m' [<-|Hin]; auto.
      * split; [exact Htag|]. right. split; [exact Hb|].
        exists (m :: before), first, after. rewrite Hrest. repeat split; auto.
        intros m' [<-|Hin]; auto.
Qed.

Lemma FindMaterial_result_aux :
  forall (tag : string) (material : OBJECT_MATERIAL) (s : State),
    exists bReturn found,
      FindMaterial tag material s = Ok (bReturn, found) s []
      /\ Material.tag found = Material.tag material
      /\ ((found = material
           /\ forall m, In m (m_objectMaterials (this s)) -> Material.tag m <> tag)
          \/ exists before first after,
               m_objectMaterials (this s) = before ++ first :: after
               /\ (forall m, In m before -> Material.tag m <> tag)
               /\ Material.tag first = tag
               /\ coefficients found = coefficients first).
Proof.
  intros tag material s.
  unfold FindMaterial, bind, get_this. cbv beta.
  destruct (m_objectMaterials (this s)) as [|m0 rest] eqn:Hreg.
  - exists false, material. cbn. repeat split. left. split; [reflexivity|]. intros m [].
  - rewrite <- Hreg.
    assert (Hne : m_objectMaterials (this s) <> []) by congruence.
    rewrite (proj2 (nonempty_size_tests _ Hne)).
    destruct (FindMaterial_while (m_objectMaterials (this s)) tag material)
      as [bFound found] eqn:Hwhile.
    apply FindMaterial_while_result in Hwhile as [Htag Hcases].
    exists true, found. split; [reflexivity|]. split; [exact Htag|].
    destruct Hcases as [(_ & Hf & Hmiss)|(_ & Hhit)]; [left; auto|right; exact Hhit].
Qed.

(** X10. [FindMaterial] always returns, without a call or a change of
    state.  The material it hands back keeps the tag the caller's material
    had; its coefficients are either the caller's, untouched, when no
    registered material carries the tag, or those of the first registered
    material that does. *)
Theorem FindMaterial_result :
  forall (tag : string) (material : OBJECT_MATERIAL) (s : State),
    exists bReturn found,
      FindMaterial tag material s = Ok (bReturn, found) s []
      /\ Material.tag found = Material.tag material
      /\ ((found = material
           /\ forall m, In m (m_objectMaterials (this s)) -> Material.tag m <> tag)
          \/ exists before first after,
               m_objectMaterials (this s) = before ++ first :: after
               /\ (forall m, In m before -> Material.tag m <> tag)
               /\ Material.tag first = tag
               /\ coefficients found = coefficients first).
Proof.
  intros tag material s.
  apply FindMaterial_result_aux.
Qed.

Lemma FindMaterial_while_app l more tag material :
  (forall m, In m more -> Material.tag m = tag ->
             exists m0, In m0 l /\ Material.tag m0 = tag) ->
  FindMaterial_while (l ++ more) tag material = FindMaterial_while l tag material.
Proof.
  induction l as [|x l IH]; intros Hshadow; cbn.
  - apply FindMaterial_while_miss. intros m Hin Heq.
    destruct (Hshadow m Hin Heq) as (m0 & [] & _).
  - destruct (String.eqb_spec (Material.tag x) tag) as [Heq|Hneq]; [reflexivity|].
    apply IH. intros m Hin Heq.
    destruct (Hshadow m Hin Heq) as (m0 & [<-|Hin0] & Hm0); [contradiction|eauto].
Qed.

Lemma push_back_material_run m s :
  push_back_material m s =
    Ok tt {| this := {| m_pShaderManager := m_pShaderManager (this s);
                        m_textureIDs := m_textureIDs (this s);
                        m_loadedTextures := m_loadedTextures (this s);
                        m_objectMaterials := m_objectMaterials (this s) ++ [m] |};
             world := world s |} [].
Proof. reflexivity. Qed.

(** X11. A material pushed under a tag that no registered material carries
    is found under that tag afterwards, with its coefficients. *)
Theorem push_back_then_find :
  forall (m material : OBJECT_MATERIAL) (s : State),
    (forall m0, In m0 (m_objectMaterials (this s)) ->
                Material.tag m0 <> Material.tag m) ->
    exists s1 found,
      push_back_material m s = Ok tt s1 []
      /\ FindMaterial (Material.tag m) material s1 = Ok (true, found) s1 []
      /\ coefficients found = coefficients m.
Proof.
  intros m material s Hnew.
  eexists _, _. split; [apply push_back_material_run|].
  unfold FindMaterial, bind, get_this. cbv beta. cbn [this m_objectMaterials].
  assert (Hne : m_objectMaterials (this s) ++ [m] <> []).
  { intros H. apply app_eq_nil in H as [_ H]. discriminate. }
  rewrite (proj2 (nonempty_size_tests _ Hne)).
  rewrite (FindMaterial_while_first _ m [] (Material.tag m) material Hnew eq_refl).
  split; reflexivity.
Qed.

Lemma push_back_then_find_witness :
  exists s1 found,
    push_back_material glassMat wood_only = Ok tt s1 []
    /\ FindMaterial (Material.tag glassMat) stale_material s1 = Ok (true, found) s1 []
    /\ coefficients found = coefficients glassMat.
Proof.
  apply (push_back_then_find glassMat stale_material wood_only).
  intros m0 [<-|[]]. discriminate.
Defined.

(** X12. A material pushed under a tag that a registered material already
    carries is never seen: every lookup, of any tag, answers afterwards what
    it answered before. *)
Theorem push_back_shadowed :
  forall (m : OBJECT_MATERIAL) (s : State),
    (exists m0, In m0 (m_objectMaterials (this s))
                /\ Material.tag m0 = Material.tag m) ->
    exists s1,
      push_back_material m s = Ok tt s1 []
      /\ forall tag material,
           exists r,
             FindMaterial tag material s = Ok r s []
             /\ FindMaterial tag material s1 = Ok r s1 [].
Proof.
  intros m s (m0 & Hin0 & Htag0).
  eexists. split; [apply push_back_material_run|].
  intros tag material.
  unfold FindMaterial, bind, get_this. cbv beta. cbn [this m_objectMaterials].
  assert (Hne : m_objectMaterials (this s) <> []).
  { intros H. rewrite H in Hin0. destruct Hin0. }
  assert (Hne' : m_objectMaterials (this s) ++ [m] <> []).
  { intros H. apply app_eq_nil in H as [_ H]. discriminate. }
  rewrite (proj2 (nonempty_size_tests _ Hne)), (proj2 (nonempty_size_tests _ Hne')).
  rewrite FindMaterial_while_app.
  - destruct (FindMaterial_while (m_objectMaterials (this s)) tag material).
    eexists. split; reflexivity.
  - intros m' [<-|[]] Heq. exists m0. split; [exact Hin0|congruence].
Qed.

Lemma push_back_shadowed_witness :
  exists s1,
    push_back_material glossyPaperMat (with_materials (Object 1)) = Ok tt s1 []
    /\ forall tag material,
         exists r,
           FindMaterial tag material (with_materials (Object 1)) =
             Ok r (with_materials (Object 1)) []
           /\ FindMaterial tag material s1 = Ok r s1 [].
Proof.
  apply (push_back_shadowed glossyPaperMat (with_materials (Object 1))).
  exists paperMat. split; [|reflexivity].
  cbn. auto 10.
Defined.

Lemma FindMaterial_found tag s before first after material :
  m_objectMaterials (this s) = before ++ first :: after ->
  (forall m, In m before -> Material.tag m <> tag) ->
  Material.tag first = tag ->
  FindMaterial tag material s =
    Ok (true,
        Material.Build (Material.ambientStrength first)
          (Material.ambientColor first) (Material.diffuseColor first)
          (Material.specularColor first) (Material.shininess first)
          (Material.tag material)) s [].
Proof.
  intros Hreg Hmiss Hfirst.
  assert (Hne : m_objectMaterials (this s) <> []).
  { rewrite Hreg. intros H. apply app_eq_nil in H as [_ H]. discriminate. }
  unfold FindMaterial, bind, get_this. cbv beta.
  rewrite (proj2 (nonempty_size_tests _ Hne)), Hreg.
  rewrite (FindMaterial_while_first before first after tag material Hmiss Hfirst).
  reflexivity.
Qed.

Ltac no_tag_before :=
  let m := fresh "m" in
  let Hin := fresh "Hin" in
  intros m Hin; cbn in Hin;
  repeat (destruct Hin as [<-|Hin]; [discriminate|]); destruct Hin.

Lemma DefineObjectMaterials_effect_aux :
  (forall s : State,
     exists s1,
       DefineObjectMaterials s = Ok tt s1 []
       /\ m_objectMaterials (this s1) = m_objectMaterials (this s) ++ scene_materials
       /\ m_textureIDs (this s1) = m_textureIDs (this s)
       /\ m_loadedTextures (this s1) = m_loadedTextures (this s)
       /\ m_pShaderManager (this s1) = m_pShaderManager (this s)
       /\ world s1 = world s)
  /\ (forall (p : pointer) (w : World),
        exists s1,
          DefineObjectMaterials {| this := SceneManager_new p; world := w |} = Ok tt s1 []
          /\ Forall (fun m =>
                       forall material,
                         exists found,
                           FindMaterial (Material.tag m) material s1 = Ok (true, found) s1 []
                           /\ coefficients found = coefficients m)
                    scene_materials).
Proof.
  assert (Hrun : forall s : State,
             exists s1,
               DefineObjectMaterials s = Ok tt s1 []
               /\ m_objectMaterials (this s1) = m_objectMaterials (this s) ++ scene_materials
               /\ m_textureIDs (this s1) = m_textureIDs (this s)
               /\ m_loadedTextures (this s1) = m_loadedTextures (this s)
               /\ m_pShaderManager (this s1) = m_pShaderManager (this s)
               /\ world s1 = world s).
  { intros s. eexists. split; [reflexivity|].
    cbn [this world m_objectMaterials m_textureIDs m_loadedTextures m_pShaderManager].
    rewrite <- !app_assoc. repeat split. }
  split; [exact Hrun|].
  intros p w.
  destruct (Hrun {| this := SceneManager_new p; world := w |})
    as (s1 & Hdef & Hreg & _).
  exists s1. split; [exact Hdef|].
  cbn [this m_objectMaterials SceneManager_new app] in Hreg.
  unfold scene_materials in *.
  assert (Hfound : forall before first after,
             m_objectMaterials (this s1) = before ++ first :: after ->
             (forall m, In m before -> Material.tag m <> Material.tag first) ->
             forall material,
               exists found,
                 FindMaterial (Material.tag first) material s1 = Ok (true, found) s1 []
                 /\ coefficients found = coefficients first).
  { intros before first after Hsplit Hmiss material. eexists. split.
    - apply (FindMaterial_found _ s1 before first after material Hsplit Hmiss eq_refl).
    - reflexivity. }
  repeat apply Forall_cons; try apply Forall_nil.
  - apply (Hfound [] woodMat _ Hreg). no_tag_before.
  - apply (Hfound [woodMat] plasticMat _ Hreg). no_tag_before.
  - apply (Hfound [woodMat; plasticMat] rubberMat _ Hreg). no_tag_before.
  - apply (Hfound [woodMat; plasticMat; rubberMat] glassMat _ Hreg). no_tag_before.
  - apply (Hfound [woodMat; plasticMat; rubberMat; glassMat] brickMat _ Hreg).
    no_tag_before.
  - apply (Hfound [woodMat; plasticMat; rubberMat; glassMat; brickMat] paperMat _ Hreg).
    no_tag_before.
  - apply (Hfound [woodMat; plasticMat; rubberMat; glassMat; brickMat; paperMat]
             topBookCoverMat _ Hreg). no_tag_before.
  - apply (Hfound [woodMat; plasticMat; rubberMat; glassMat; brickMat; paperMat;
                   topBookCoverMat] bottomBookCoverMat _ Hreg). no_tag_before.
Qed.

(** X13. [DefineObjectMaterials] always returns without a call; it appends
    the eight scene materials, in order, to the registry and changes nothing
    else.  On a newly constructed manager each of the eight is then found
    under its own tag with its own coefficients: no two of them share a
    tag. *)
Theorem DefineObjectMaterials_effect :
  (forall s : State,
     exists s1,
       DefineObjectMaterials s = Ok tt s1 []
       /\ m_objectMaterials (this s1) = m_objectMaterials (this s) ++ scene_materials
       /\ m_textureIDs (this s1) = m_textureIDs (this s)
       /\ m_loadedTextures (this s1) = m_loadedTextures (this s)
       /\ m_pShaderManager (this s1) = m_pShaderManager (this s)
       /\ world s1 = world s)
  /\ (forall (p : pointer) (w : World),
        exists s1,
          DefineObjectMaterials {| this := SceneManager_new p; world := w |} = Ok tt s1 []
          /\ Forall (fun m =>
                       forall material,
                         exists found,
                           FindMaterial (Material.tag m) material s1 = Ok (true, found) s1 []
                           /\ coefficients found = coefficients m)
                    scene_materials).
Proof.
  split.
  - intros s. apply (proj1 DefineObjectMaterials_effect_aux).
  - intros p w. apply (proj2 DefineObjectMaterials_effect_aux).
Qed.

(** X14. With a shader manager present, [SetShaderMaterial] for a tag that
    a registered material carries returns without changing anything, and its
    calls are the five [material.*] uniform writes, in the order ambient
    colour, ambient strength, diffuse colour, specular colour, shininess,
    with the coefficients of the first registered material carrying the
    tag. *)
Theorem SetShaderMaterial_hit :
  forall (tag : string) (s : State) (address : positive)
         (before after : list OBJECT_MATERIAL) (first : OBJECT_MATERIAL),
    m_pShaderManager (this s) = Object address ->
    m_objectMaterials (this s) = before ++ first :: after ->
    (forall m, In m before -> Material.tag m <> tag) ->
    Material.tag first = tag ->
    SetShaderMaterial tag s = Ok tt s (material_writes first).
Proof.
  intros tag s address before after first Hp Hreg Hmiss Hfirst.
  assert (Hne : m_objectMaterials (this s) <> []).
  { rewrite Hreg. intros H. apply app_eq_nil in H as [_ H]. discriminate. }
  pose proof (fun material =>
                FindMaterial_found tag s before first after material Hreg Hmiss Hfirst)
    as Hfind.
  unfold SetShaderMaterial. unfold bind at 1, get_this at 1. cbv beta iota.
  rewrite (proj1 (nonempty_size_tests _ Hne)).
  unfold bind at 1, declare_material. cbv beta iota.
  unfold bind at 1. rewrite Hfind.
  unfold via_shader, bind, get_this, call. cbv beta iota.
  repeat (rewrite Hp; cbv beta iota). reflexivity.
Qed.

Lemma SetShaderMaterial_hit_witness :
  SetShaderMaterial "glass" (with_materials (Object 1)) =
    Ok tt (with_materials (Object 1)) (material_writes glassMat).
Proof.
  apply (SetShaderMaterial_hit "glass" (with_materials (Object 1)) 1%positive
           [woodMat; plasticMat; rubberMat]
           [brickMat; paperMat; topBookCoverMat; bottomBookCoverMat] glassMat).
  - reflexivity.
  - reflexivity.
  - intros m Hin. cbn in Hin.
    repeat (destruct Hin as [<-|Hin]; [discriminate|]). destruct Hin.
  - reflexivity.
Defined.

(** ** More about the draw-state composer *)

(** X15. With a shader manager present and a registry whose count fits the
    array, [SetShaderTexture] returns without changing anything; it first
    sets [bUseTexture] to 1 and then writes, as the sampler [objectTexture],
    the position of the first occupied slot carrying the tag, or -1 when no
    occupied slot does. *)
Theorem SetShaderTexture_writes :
  forall (textureTag : string) (s : State) (address : positive),
    m_pShaderManager (this s) = Object address ->
    fits (this s) ->
    exists r,
      SetShaderTexture textureTag s =
        Ok tt s [setIntValue "bUseTexture" 1; setSampler2DValue "objectTexture" r]
      /\ first_occurrence (occupied_tags (this s)) textureTag r.
Proof.
  intros textureTag s address Hp Hfits.
  destruct (texture_lookups_agree_aux textureTag s Hfits)
    as (r & id & Hslot & _ & Hfirst & _).
  exists r. split; [|exact Hfirst].
  unfold SetShaderTexture. unfold bind at 1, get_this at 1. cbv beta iota.
  rewrite Hp.
  unfold bind at 1. unfold via_shader at 1, bind at 1, get_this at 1. cbv beta iota.
  rewrite Hp. cbn [call].
  unfold bind at 1. rewrite Hslot.
  unfold via_shader, bind, get_this, call. cbv beta iota. rewrite Hp.
  reflexivity.
Qed.

Lemma SetShaderTexture_writes_witness :
  exists r,
    SetShaderTexture "glass" wood_brick =
      Ok tt wood_brick [setIntValue "bUseTexture" 1; setSampler2DValue "objectTexture" r]
    /\ first_occurrence (occupied_tags (this wood_brick)) "glass" r.
Proof.
  apply (SetShaderTexture_writes "glass" wood_brick 1%positive).
  - reflexivity.
  - split; vm_compute; discriminate.
Defined.

(** ** More about the scene *)

Lemma CreateGLTexture_keeps_pointer filename tag s b s' calls :
  CreateGLTexture filename tag s = Ok b s' calls ->
  m_pShaderManager (this s') = m_pShaderManager (this s).
Proof.
  intros H. destruct b.
  - apply CreateGLTexture_true_registered in H as [_ Hthis]. now rewrite Hthis.
  - apply CreateGLTexture_false_keeps_manager_aux in H as [Hthis _]. now rewrite Hthis.
Qed.

Lemma preserves_for_loop body n :
  (forall i, preserves_state (body i)) ->
  forall i, preserves_state (for_loop n i body).
Proof.
  intros Hbody. induction n as [|n IH]; intro i; cbn [for_loop].
  - apply preserves_ret.
  - apply preserves_bind; [apply Hbody|intros _; apply IH].
Qed.

Lemma preserves_BindGLTextures : preserves_state BindGLTextures.
Proof.
  unfold BindGLTextures. apply preserves_bind; [apply preserves_get_this|intro t].
  apply preserves_for_loop. intro i. repeat preserves_step.
Qed.

Lemma LoadScenetexture_keeps_pointer s a s' calls :
  LoadScenetexture s = Ok a s' calls ->
  m_pShaderManager (this s') = m_pShaderManager (this s).
Proof.
  unfold LoadScenetexture. intros H.
  apply bind_Ok in H as (b1 & s1 & c1 & c1' & H1 & H & _).
  apply bind_Ok in H as (b2 & s2 & c2 & c2' & H2 & H & _).
  apply bind_Ok in H as (b3 & s3 & c3 & c3' & H3 & H & _).
  apply bind_Ok in H as (b4 & s4 & c4 & c4' & H4 & H & _).
  apply preserves_BindGLTextures in H. subst s'.
  apply CreateGLTexture_keeps_pointer in H1, H2, H3, H4. congruence.
Qed.

(** X17. [PrepareScene] on a manager without a shader manager never
    returns: the light set-up calls through the null pointer (when the
    texture loads have not already run past the array). *)
Theorem PrepareScene_null_shader :
  forall s : State,
    m_pShaderManager (this s) = NULL ->
    exists f, PrepareScene s = Undefined f.
Proof.
  intros s Hp. unfold PrepareScene. unfold bind at 1.
  destruct (LoadScenetexture s) as [a s1 c1|f] eqn:Hload; [|now exists f].
  apply LoadScenetexture_keeps_pointer in Hload. rewrite Hp in Hload.
  destruct (proj1 DefineObjectMaterials_effect_aux s1) as (s2 & Hdef & _ & _ & _ & Hp2 & _).
  unfold bind at 1. rewrite Hdef. rewrite Hload in Hp2.
  exists NullDereference.
  unfold SetupSceneLights. unfold bind at 1. unfold bind at 1.
  unfold via_shader at 1, bind at 1, get_this at 1. cbv beta iota.
  rewrite Hp2. reflexivity.
Qed.

Lemma PrepareScene_null_shader_witness :
  exists f, PrepareScene (constructed NULL) = Undefined f.
Proof.
  apply (PrepareScene_null_shader (constructed NULL)).
  reflexivity.
Defined.

Lemma loadable_same_decoder w w' filename :
  stbi_load w' = stbi_load w -> loadable w' filename = loadable w filename.
Proof. unfold loadable. now intros ->. Qed.

(** One load into a registry with a free slot. *)
Lemma CreateGLTexture_step filename tag s :
  fits (this s) ->
  m_loadedTextures (this s) < Z.of_nat (List.length (m_textureIDs (this s))) ->
  exists s' calls,
    CreateGLTexture filename tag s = Ok (loadable (world s) filename) s' calls
    /\ fits (this s')
    /\ occupied_tags (this s') =
         occupied_tags (this s) ++ (if loadable (world s) filename then [tag] else [])
    /\ List.length (m_textureIDs (this s')) = List.length (m_textureIDs (this s))
    /\ m_loadedTextures (this s') =
         m_loadedTextures (this s) + (if loadable (world s) filename then 1 else 0)
    /\ stbi_load (world s') = stbi_load (world s)
    /\ m_pShaderManager (this s') = m_pShaderManager (this s)
    /\ m_objectMaterials (this s') = m_objectMaterials (this s).
Proof.
  intros Hfits Hfree.
  assert (Hb : in_bounds (m_textureIDs (this s)) (m_loadedTextures (this s)) = true).
  { apply in_bounds_spec. destruct Hfits. lia. }
  destruct (CreateGLTexture_outcome_aux filename tag s Hb)
    as (s' & calls & Hrun & Hthis & Hdec & _).
  exists s', calls. split; [exact Hrun|].
  destruct (loadable (world s) filename).
  - destruct (registered_occupied (this s) (Texture.Build tag (gl_fresh (world s))) Hb)
      as (Hfits' & Htags' & _).
    rewrite Hthis. repeat split; try apply Hfits'; auto.
    unfold registered. cbn [m_textureIDs]. apply length_list_set.
  - rewrite Hthis, app_nil_r, Z.add_0_r. repeat split; try apply Hfits; auto.
Qed.

(** X18. With at least four free slots, [LoadScenetexture] returns whatever
    the files hold.  It registers, after the tags already there, the tags
    of those of its four files that are loadable, in the order brick, desk,
    wood, plastic, so a file that fails moves the later textures one slot
    down; and it ends by binding every occupied slot to the unit of its
    index. *)
Theorem LoadScenetexture_effect :
  forall s : State,
    0 <= m_loadedTextures (this s) ->
    m_loadedTextures (this s) + 4 <= Z.of_nat (List.length (m_textureIDs (this s))) ->
    exists s' calls,
      LoadScenetexture s = Ok tt s' (calls ++ unit_bindings 0 (occupied_IDs (this s')))
      /\ occupied_tags (this s') =
           occupied_tags (this s)
           ++ map snd (filter (fun ft => loadable (world s) (Some (fst ft))) scene_textures)
      /\ m_pShaderManager (this s') = m_pShaderManager (this s)
      /\ m_objectMaterials (this s') = m_objectMaterials (this s).
Proof.
  intros s Hlo Hhi.
  assert (Hfits : fits (this s)) by (unfold fits; lia).
  destruct (CreateGLTexture_step (Some "./Source/brick.jpg") "brick" s Hfits)
    as (s1 & c1 & Hrun1 & Hfits1 & Htags1 & Hlen1 & Hn1 & Hdec1 & Hp1 & Hm1); [lia|].
  assert (Hn1' : m_loadedTextures (this s1) <= m_loadedTextures (this s) + 1)
    by (rewrite Hn1; destruct (loadable _ _); lia).
  destruct (CreateGLTexture_step (Some "./Source/desk.jpg") "desk" s1 Hfits1)
    as (s2 & c2 & Hrun2 & Hfits2 & Htags2 & Hlen2 & Hn2 & Hdec2 & Hp2 & Hm2); [lia|].
  assert (Hn2' : m_loadedTextures (this s2) <= m_loadedTextures (this s) + 2)
    by (rewrite Hn2; destruct (loadable (world s1) _); lia).
  destruct (CreateGLTexture_step (Some "./Source/wood.jpg") "wood" s2 Hfits2)
    as (s3 & c3 & Hrun3 & Hfits3 & Htags3 & Hlen3 & Hn3 & Hdec3 & Hp3 & Hm3); [lia|].
  assert (Hn3' : m_loadedTextures (this s3) <= m_loadedTextures (this s) + 3)
    by (rewrite Hn3; destruct (loadable (world s2) _); lia).
  destruct (CreateGLTexture_step (Some "./Source/plastic.jpg") "plastic" s3 Hfits3)
    as (s4 & c4 & Hrun4 & Hfits4 & Htags4 & Hlen4 & Hn4 & Hdec4 & Hp4 & Hm4); [lia|].
  exists s4, (c1 ++ c2 ++ c3 ++ c4). split; [|split; [|split; congruence]].
  - unfold LoadScenetexture.
    unfold bind at 1. rewrite Hrun1.
    unfold bind at 1. rewrite Hrun2.
    unfold bind at 1. rewrite Hrun3.
    unfold bind at 1. rewrite Hrun4.
    rewrite (BindGLTextures_slot_to_unit_aux s4 Hfits4).
    now rewrite <- !app_assoc.
  - rewrite Htags4, Htags3, Htags2, Htags1, <- !app_assoc.
    rewrite (loadable_same_decoder (world s) (world s1)) by exact Hdec1.
    rewrite (loadable_same_decoder (world s) (world s2)) by congruence.
    rewrite (loadable_same_decoder (world s) (world s3)) by congruence.
    f_equal. cbn [scene_textures filter fst].
    destruct (loadable (world s) (Some "./Source/brick.jpg")),
             (loadable (world s) (Some "./Source/desk.jpg")),
             (loadable (world s) (Some "./Source/wood.jpg")),
             (loadable (world s) (Some "./Source/plastic.jpg")); reflexivity.
Qed.

Lemma LoadScenetexture_effect_witness :
  exists s' calls,
    LoadScenetexture (constructed (Object 1)) =
      Ok tt s' (calls ++ unit_bindings 0 (occupied_IDs (this s')))
    /\ occupied_tags (this s') =
         occupied_tags (this (constructed (Object 1)))
         ++ map snd (filter (fun ft => loadable (world (constructed (Object 1)))
                                                (Some (fst ft))) scene_textures)
    /\ m_pShaderManager (this s') = m_pShaderManager (this (constructed (Object 1)))
    /\ m_objectMaterials (this s') = m_objectMaterials (this (constructed (Object 1))).
Proof.
  apply (LoadScenetexture_effect (constructed (Object 1))).
  - vm_compute. discriminate.
  - vm_compute. discriminate.
Defined.

(** *** Which meshes are loaded and drawn *)

Section Selecting.
Variable keep : Call -> bool.
Hypothesis keep_meshes : forall c, keep c = true -> is_mesh_call c = true.

Lemma keep_other c : is_mesh_call c = false -> keep c = false.
Proof.
  intros Hc. destruct (keep c) eqn:Hk; [|reflexivity].
  apply keep_meshes in Hk. congruence.
Qed.

Lemma selects_ret {A} (a : A) : selects keep (ret a) [].
Proof. intros s a' s' calls H. now inversion H. Qed.

Lemma selects_bind {A B} (m : M A) (k : A -> M B) l1 l2 :
  selects keep m l1 -> (forall a, selects keep (k a) l2) ->
  selects keep (bind m k) (l1 ++ l2).
Proof.
  intros Hm Hk s b s2 calls H.
  apply bind_Ok in H as (a & s1 & c1 & c2 & H1 & H2 & ->).
  rewrite filter_app. f_equal; [eapply Hm|eapply Hk]; eassumption.
Qed.

Lemma selects_skip {A B} (m : M A) (k : A -> M B) l :
  selects keep m [] -> (forall a, selects keep (k a) l) ->
  selects keep (bind m k) l.
Proof. intros Hm Hk. apply (selects_bind m k [] l Hm Hk). Qed.

Lemma selects_call c : selects keep (call c) (if keep c then [c] else []).
Proof. intros s a s' calls H. inversion H. reflexivity. Qed.

Lemma selects_call_other c : is_mesh_call c = false -> selects keep (call c) [].
Proof.
  intros Hc s a s' calls H. inversion H. cbn. now rewrite (keep_other c Hc).
Qed.

Lemma selects_get_this : selects keep get_this [].
Proof. intros s a s' calls H. now inversion H. Qed.

Lemma selects_put_this t : selects keep (put_this t) [].
Proof. intros s a s' calls H. now inversion H. Qed.

Lemma selects_undefined {A} f : selects keep (@undefined A f) [].
Proof. intros s a s' calls H. discriminate. Qed.

Lemma selects_declare_material : selects keep declare_material [].
Proof. intros s a s' calls H. now inversion H. Qed.

Lemma selects_gen_texture : selects keep gen_texture [].
Proof.
  intros s a s' calls H. inversion H. cbn. now rewrite keep_other.
Qed.

Lemma selects_decode filename :
  selects keep (fun s => Ok (stbi_load (world s) filename) s []) [].
Proof. intros s a s' calls H. now inversion H. Qed.

Create HintDb selects.
Hint Resolve selects_ret selects_get_this selects_put_this selects_undefined
  selects_declare_material selects_gen_texture selects_decode : selects.

Ltac selects_step :=
  match goal with
  | |- selects _ (bind _ _) [] => apply selects_skip; [|intro]
  | |- selects _ (call _) [] => apply selects_call_other; reflexivity
  | |- selects _ (match ?x with _ => _ end) [] => destruct x
  | |- selects _ (if ?x then _ else _) [] => destruct x
  | |- selects _ _ [] => solve [auto with selects]
  end.

Lemma selects_via_shader c : is_mesh_call c = false -> selects keep (via_shader c) [].
Proof.
  intros Hc. unfold via_shader. apply selects_skip; [auto with selects|intro t].
  destruct (m_pShaderManager t); [auto with selects|now apply selects_call_other].
Qed.

Lemma selects_load_slot i : selects keep (load_slot i) [].
Proof. unfold load_slot. repeat selects_step. Qed.

Lemma selects_store_slot i x : selects keep (store_slot i x) [].
Proof. unfold store_slot. repeat selects_step. Qed.

Lemma selects_set_loadedTextures n : selects keep (set_loadedTextures n) [].
Proof. unfold set_loadedTextures. repeat selects_step. Qed.

Hint Resolve selects_load_slot selects_store_slot selects_set_loadedTextures : selects.

Lemma selects_FindTextureSlot tag : selects keep (FindTextureSlot tag) [].
Proof.
  unfold FindTextureSlot. selects_step; [auto with selects|].
  generalize (Z.to_nat (m_loadedTextures a - 0)). intros n.
  generalize 0. induction n as [|n IH]; intro i; cbn [FindTextureSlot_while].
  - apply selects_ret.
  - repeat selects_step; apply IH.
Qed.

Lemma selects_FindMaterial tag material : selects keep (FindMaterial tag material) [].
Proof.
  unfold FindMaterial. selects_step; [auto with selects|].
  destruct (_ =? _); [auto with selects|].
  destruct (FindMaterial_while _ _ _). auto with selects.
Qed.

Hint Resolve selects_FindTextureSlot selects_FindMaterial : selects.

Ltac shader_step :=
  match goal with
  | |- selects _ (via_shader _) [] => apply selects_via_shader; reflexivity
  | |- selects _ (let '(_, _) := ?r in _) [] => destruct r
  | _ => selects_step
  end.

Lemma selects_SetTransformations sc rx ry rz pos :
  selects keep (SetTransformations sc rx ry rz pos) [].
Proof. unfold SetTransformations. cbv zeta. repeat shader_step. Qed.

Lemma selects_SetShaderTexture tag : selects keep (SetShaderTexture tag) [].
Proof. unfold SetShaderTexture. repeat shader_step. Qed.

Lemma selects_SetTextureUVScale u v : selects keep (SetTextureUVScale u v) [].
Proof. unfold SetTextureUVScale. repeat shader_step. Qed.

Lemma selects_SetShaderMaterial tag : selects keep (SetShaderMaterial tag) [].
Proof. unfold SetShaderMaterial. repeat shader_step. Qed.

Lemma selects_CreateGLTexture filename tag :
  selects keep (CreateGLTexture filename tag) [].
Proof.
  unfold CreateGLTexture, CreateGLTexture_register. repeat selects_step.
Qed.

Lemma selects_for_loop body n :
  (forall i, selects keep (body i) []) ->
  forall i, selects keep (for_loop n i body) [].
Proof.
  intros Hbody. induction n as [|n IH]; intro i; cbn [for_loop].
  - apply selects_ret.
  - apply selects_skip; [apply Hbody|intros _; apply IH].
Qed.

Lemma selects_LoadScenetexture : selects keep LoadScenetexture [].
Proof.
  unfold LoadScenetexture, BindGLTextures.
  repeat (apply selects_skip; [apply selects_CreateGLTexture|intro]).
  apply selects_skip; [auto with selects|intro t].
  apply selects_for_loop. intro i. repeat selects_step.
Qed.

Lemma selects_DefineObjectMaterials : selects keep DefineObjectMaterials [].
Proof.
  unfold DefineObjectMaterials, push_back_material. repeat selects_step.
Qed.

Lemma selects_SetupSceneLights : selects keep SetupSceneLights [].
Proof. unfold SetupSceneLights. repeat shader_step. Qed.
End Selecting.

Lemma draws_are_mesh_calls c : is_draw c = true -> is_mesh_call c = true.
Proof. unfold is_mesh_call. now intros ->. Qed.

Lemma loads_are_mesh_calls c : is_mesh_load c = true -> is_mesh_call c = true.
Proof. unfold is_mesh_call. intros ->. apply orb_true_r. Qed.

Ltac composer_selects keep Hkeep :=
  first [ apply (selects_SetTransformations keep Hkeep)
        | apply (selects_SetShaderTexture keep Hkeep)
        | apply (selects_SetTextureUVScale keep Hkeep)
        | apply (selects_SetShaderMaterial keep Hkeep) ].

Ltac builder_step keep Hkeep :=
  match goal with
  | |- selects _ (bind (call ?c) _) (?c :: ?l) =>
      apply (selects_bind keep (call c) _ [c] l); [apply (selects_call keep c)|intro]
  | |- selects _ (bind (call ?c) _) [] =>
      apply (selects_bind keep (call c) _ [] []); [apply (selects_call keep c)|intro]
  | |- selects _ (call ?c) _ => apply (selects_call keep c)
  | |- selects _ (bind _ _) _ =>
      apply (selects_skip keep); [composer_selects keep Hkeep|intro]
  end.

Lemma build_draws b : selects is_draw (build b) (builder_draws b).
Proof.
  destruct b;
    cbv [build builder_draws MakeDesk MakeBackWall MakeDeskStand
                         MakeMug MakeBooks MakeLamp MakePenHolder];
    repeat builder_step is_draw draws_are_mesh_calls.
Qed.

Lemma build_loads_nothing b : selects is_mesh_load (build b) [].
Proof.
  destruct b;
    cbv [build MakeDesk MakeBackWall MakeDeskStand
                         MakeMug MakeBooks MakeLamp MakePenHolder];
    repeat builder_step is_mesh_load loads_are_mesh_calls.
Qed.

Lemma RenderScene_selects keep (l : Builder -> list Call) :
  (forall b, selects keep (build b) (l b)) ->
  selects keep RenderScene (flat_map l scene_builders).
Proof.
  intros Hb. unfold RenderScene. cbn [flat_map scene_builders].
  apply (selects_bind keep MakeDesk _ _ _ (Hb Desk)); intros _.
  apply (selects_bind keep MakeBackWall _ _ _ (Hb BackWall)); intros _.
  apply (selects_bind keep MakeDeskStand _ _ _ (Hb DeskStand)); intros _.
  apply (selects_bind keep MakeMug _ _ _ (Hb Mug)); intros _.
  apply (selects_bind keep MakeBooks _ _ _ (Hb Books)); intros _.
  apply (selects_bind keep MakeLamp _ _ _ (Hb Lamp)); intros _.
  rewrite app_nil_r. apply (Hb PenHolder).
Qed.

Lemma preserves_RenderScene : preserves_state RenderScene.
Proof.
  unfold RenderScene.
  apply (preserves_bind MakeDesk _ (preserves_build Desk)); intros _.
  apply (preserves_bind MakeBackWall _ (preserves_build BackWall)); intros _.
  apply (preserves_bind MakeDeskStand _ (preserves_build DeskStand)); intros _.
  apply (preserves_bind MakeMug _ (preserves_build Mug)); intros _.
  apply (preserves_bind MakeBooks _ (preserves_build Books)); intros _.
  apply (preserves_bind MakeLamp _ (preserves_build Lamp)); intros _.
  apply (preserves_build PenHolder).
Qed.

(** X19. Whenever [RenderScene] returns it has left the manager and the
    world as they were, it has loaded no mesh, and the meshes it has drawn
    are, whatever the registries hold, the same 28 in the same order: those
    of the desk, the back wall, the desk stand, the mug, the books, the lamp
    and the pen holder. *)
Theorem RenderScene_draws :
  forall (s s' : State) (calls : list Call),
    RenderScene s = Ok tt s' calls ->
    s' = s
    /\ filter is_draw calls = flat_map builder_draws scene_builders
    /\ filter is_mesh_load calls = [].
Proof.
  intros s s' calls Hrun. split; [|split].
  - apply (preserves_RenderScene s tt s' calls Hrun).
  - apply (RenderScene_selects is_draw builder_draws build_draws s tt s' calls Hrun).
  - apply (RenderScene_selects is_mesh_load (fun _ => []) build_loads_nothing
             s tt s' calls Hrun).
Qed.

Lemma selects_call_then keep c (m : M unit) l :
  selects keep m (filter keep l) ->
  selects keep (bind (call c) (fun _ => m)) (filter keep (c :: l)).
Proof.
  intros Hm s a s' calls H.
  apply bind_Ok in H as (a1 & s1 & c1 & c2 & H1 & H2 & ->).
  inversion H1; subst. cbn [app filter].
  now rewrite (Hm _ _ _ _ H2).
Qed.

Lemma PrepareScene_selects keep :
  (forall c, keep c = true -> is_mesh_call c = true) ->
  selects keep PrepareScene
    (filter keep [LoadBoxMesh; LoadCylinderMesh; LoadPlaneMesh;
                  LoadTaperedCylinderMesh; LoadConeMesh]).
Proof.
  intros Hkeep. unfold PrepareScene.
  apply selects_skip; [apply (selects_LoadScenetexture keep Hkeep)|intros _].
  apply selects_skip; [apply (selects_DefineObjectMaterials keep)|intros _].
  apply selects_skip; [apply (selects_SetupSceneLights keep Hkeep)|intros _].
  do 4 apply selects_call_then.
  apply (selects_call keep LoadConeMesh).
Qed.

Lemma RenderScene_draws_witness :
  prepared = prepared
  /\ filter is_draw (match RenderScene prepared with
                     | Ok _ _ calls => calls
                     | Undefined _ => []
                     end) = flat_map builder_draws scene_builders
  /\ filter is_mesh_load (match RenderScene prepared with
                          | Ok _ _ calls => calls
                          | Undefined _ => []
                          end) = [].
Proof.
  apply (RenderScene_draws prepared prepared
           (match RenderScene prepared with
            | Ok _ _ calls => calls
            | Undefined _ => []
            end)).
  cbv -[glm.mul glm.translate glm.rotate glm.scale glm.radians
        IZR Rdiv Rmult Rplus Ropp Rminus Rinv].
  reflexivity.
Defined.

(** X20. Whenever [PrepareScene] returns it has loaded each of the five
    meshes (box, cylinder, plane, tapered cylinder, cone) exactly once and
    drawn none; and every mesh a following [RenderScene] draws is one of
    those it loaded. *)
Theorem PrepareScene_loads_what_is_drawn :
  forall (s s1 s2 : State) (loads draws : list Call),
    PrepareScene s = Ok tt s1 loads ->
    RenderScene s1 = Ok tt s2 draws ->
    filter is_mesh_load loads =
      [LoadBoxMesh; LoadCylinderMesh; LoadPlaneMesh;
       LoadTaperedCylinderMesh; LoadConeMesh]
    /\ filter is_draw loads = []
    /\ Forall (fun c => In (load_for c) loads) (filter is_draw draws).
Proof.
  intros s s1 s2 loads draws Hprepare Hrender.
  pose proof (PrepareScene_selects is_mesh_load loads_are_mesh_calls
                s tt s1 loads Hprepare) as Hloads.
  pose proof (PrepareScene_selects is_draw draws_are_mesh_calls
                s tt s1 loads Hprepare) as Hnone.
  pose proof (RenderScene_selects is_draw builder_draws build_draws
                s1 tt s2 draws Hrender) as Hdraws.
  cbn [filter is_mesh_load is_draw] in Hloads, Hnone.
  split; [exact Hloads|]. split; [exact Hnone|].
  rewrite Hdraws.
  assert (Hin : forall c, In c (filter is_mesh_load loads) -> In c loads).
  { intros c Hc. apply filter_In in Hc. tauto. }
  rewrite Hloads in Hin.
  cbn [flat_map scene_builders builder_draws app].
  repeat (apply Forall_cons; [apply Hin; cbn; tauto|]).
  apply Forall_nil.
Qed.

Lemma PrepareScene_loads_what_is_drawn_witness :
  filter is_mesh_load (match PrepareScene (constructed (Object 1)) with
                       | Ok _ _ calls => calls
                       | Undefined _ => []
                       end) =
    [LoadBoxMesh; LoadCylinderMesh; LoadPlaneMesh;
     LoadTaperedCylinderMesh; LoadConeMesh]
  /\ filter is_draw (match PrepareScene (constructed (Object 1)) with
                     | Ok _ _ calls => calls
                     | Undefined _ => []
                     end) = []
  /\ Forall (fun c => In (load_for c)
                        (match PrepareScene (constructed (Object 1)) with
                         | Ok _ _ calls => calls
                         | Undefined _ => []
                         end))
            (filter is_draw (match RenderScene prepared with
                             | Ok _ _ calls => calls
                             | Undefined _ => []
                             end)).
Proof.
  apply (PrepareScene_loads_what_is_drawn (constructed (Object 1)) prepared prepared
           (match PrepareScene (constructed (Object 1)) with
            | Ok _ _ calls => calls
            | Undefined _ => []
            end)
           (match RenderScene prepared with
            | Ok _ _ calls => calls
            | Undefined _ => []
            end)).
  - cbv -[glm.mul glm.translate glm.rotate glm.scale glm.radians
          IZR Rdiv Rmult Rplus Ropp Rminus Rinv].
    reflexivity.
  - cbv -[glm.mul glm.translate glm.rotate glm.scale glm.radians
          IZR Rdiv Rmult Rplus Ropp Rminus Rinv].
    reflexivity.
Defined.

(** *** Rendering with and without a shader manager *)

Lemma runs_skip {A B} s (m : M A) (k : A -> M B) a b l :
  runs s m a [] -> runs s (k a) b l -> runs s (bind m k) b l.
Proof.
  unfold runs. intros Hm Hk. now rewrite (bind_quiet m k s a Hm).
Qed.

Lemma runs_call_then {B} s c (k : unit -> M B) b l :
  runs s (k tt) b l -> runs s (bind (call c) k) b (c :: l).
Proof. unfold runs, bind, call. now intros ->. Qed.

Lemma runs_call s c : runs s (call c) tt [c].
Proof. reflexivity. Qed.

Lemma SetShaderMaterial_no_materials tag s :
  m_objectMaterials (this s) = [] -> runs s (SetShaderMaterial tag) tt [].
Proof.
  intros Hempty. unfold runs, SetShaderMaterial, bind, get_this. cbv beta.
  rewrite Hempty. reflexivity.
Qed.

Lemma build_without_shader b s :
  m_pShaderManager (this s) = NULL ->
  m_objectMaterials (this s) = [] ->
  runs s (build b) tt (builder_draws b).
Proof.
  intros Hp Hempty.
  destruct (guarded_writes_skip_null s Hp) as (Htransform & _ & Htexture & Huv).
  pose proof (fun tag => SetShaderMaterial_no_materials tag s Hempty) as Hmaterial.
  destruct b;
    cbv [build builder_draws MakeDesk MakeBackWall MakeDeskStand MakeMug MakeBooks
         MakeLamp MakePenHolder];
    repeat first
      [ apply runs_call
      | apply runs_call_then
      | apply (runs_skip s _ _ tt);
        [first [apply Htransform | apply Htexture | apply Huv | apply Hmaterial]|] ].
Qed.

Lemma runs_then {A B} s (m : M A) (k : A -> M B) a b l1 l2 :
  runs s m a l1 -> runs s (k a) b l2 -> runs s (bind m k) b (l1 ++ l2).
Proof. unfold runs, bind. now intros -> ->. Qed.

Lemma RenderScene_runs s (l : Builder -> list Call) :
  (forall b, runs s (build b) tt (l b)) ->
  runs s RenderScene tt (flat_map l scene_builders).
Proof.
  intros Hb. unfold RenderScene. cbn [flat_map scene_builders].
  apply (runs_then s MakeDesk _ tt tt _ _ (Hb Desk)).
  apply (runs_then s MakeBackWall _ tt tt _ _ (Hb BackWall)).
  apply (runs_then s MakeDeskStand _ tt tt _ _ (Hb DeskStand)).
  apply (runs_then s MakeMug _ tt tt _ _ (Hb Mug)).
  apply (runs_then s MakeBooks _ tt tt _ _ (Hb Books)).
  apply (runs_then s MakeLamp _ tt tt _ _ (Hb Lamp)).
  rewrite app_nil_r. apply (Hb PenHolder).
Qed.

(** X21. [RenderScene] and the shader manager.  Without a shader manager
    and without a registered material it returns and its calls are just the
    28 mesh draws; without a shader manager but with a material registered
    it calls through the null pointer, in the first builder already; with a
    shader manager and a registry whose count fits the array it returns. *)
Theorem RenderScene_and_the_shader :
  forall s : State,
    (m_pShaderManager (this s) = NULL ->
     m_objectMaterials (this s) = [] ->
     RenderScene s = Ok tt s (flat_map builder_draws scene_builders))
    /\ (m_pShaderManager (this s) = NULL ->
        m_objectMaterials (this s) <> [] ->
        RenderScene s = Undefined NullDereference)
    /\ (m_pShaderManager (this s) <> NULL ->
        fits (this s) ->
        exists calls, RenderScene s = Ok tt s calls).
Proof.
  intros s. split; [|split].
  - intros Hp Hempty.
    apply (RenderScene_runs s builder_draws).
    intro b. apply (build_without_shader b s Hp Hempty).
  - intros Hp Hne.
    destruct (guarded_writes_skip_null s Hp) as (Htransform & _ & Htexture & Huv).
    unfold RenderScene, MakeDesk.
    unfold bind at 1.
    rewrite (bind_quiet _ _ s tt (Htransform _ _ _ _ _)).
    rewrite (bind_quiet _ _ s tt (Htexture _)).
    rewrite (bind_quiet _ _ s tt (Huv _ _)).
    unfold bind at 1.
    rewrite (SetShaderMaterial_null_undefined "wood" s Hp Hne).
    reflexivity.
  - intros Hp Hfits.
    assert (Hcomposable : composable s).
    { split; [|left; exact Hp]. destruct Hfits. lia. }
    assert (Hruns : forall b, exists calls, runs s (build b) tt calls)
      by (intro b; apply (build_returns s Hcomposable b)).
    destruct (Hruns Desk) as (c1 & H1), (Hruns BackWall) as (c2 & H2),
             (Hruns DeskStand) as (c3 & H3), (Hruns Mug) as (c4 & H4),
             (Hruns Books) as (c5 & H5), (Hruns Lamp) as (c6 & H6),
             (Hruns PenHolder) as (c7 & H7).
    exists (c1 ++ c2 ++ c3 ++ c4 ++ c5 ++ c6 ++ c7).
    unfold RenderScene.
    apply (runs_then s MakeDesk _ tt tt _ _ H1).
    apply (runs_then s MakeBackWall _ tt tt _ _ H2).
    apply (runs_then s MakeDeskStand _ tt tt _ _ H3).
    apply (runs_then s MakeMug _ tt tt _ _ H4).
    apply (runs_then s MakeBooks _ tt tt _ _ H5).
    apply (runs_then s MakeLamp _ tt tt _ _ H6).
    exact H7.
Qed.

Lemma RenderScene_and_the_shader_witness :
  RenderScene (constructed NULL) =
    Ok tt (constructed NULL) (flat_map builder_draws scene_builders)
  /\ RenderScene (with_materials NULL) = Undefined NullDereference
  /\ exists calls, RenderScene wood_brick = Ok tt wood_brick calls.
Proof.
  destruct (RenderScene_and_the_shader (constructed NULL)) as (Hdraws & _ & _).
  destruct (RenderScene_and_the_shader (with_materials NULL)) as (_ & Hfault & _).
  destruct (RenderScene_and_the_shader wood_brick) as (_ & _ & Hreturns).
  split; [|split].
  - apply Hdraws; reflexivity.
  - apply Hfault; [reflexivity|discriminate].
  - apply Hreturns; [discriminate|split; vm_compute; discriminate].
Defined.

(** *** What the book builder leaves alone *)

Section Only.
Variable ok : Call -> bool.

Lemma only_ret {A} (a : A) : only ok (ret a).
Proof. intros s a' s' calls H. inversion H. constructor. Qed.

Lemma only_bind {A B} (m : M A) (k : A -> M B) :
  only ok m -> (forall a, only ok (k a)) -> only ok (bind m k).
Proof.
  intros Hm Hk s b s2 calls H.
  apply bind_Ok in H as (a & s1 & c1 & c2 & H1 & H2 & ->).
  apply Forall_app. split; [eapply Hm|eapply Hk]; eassumption.
Qed.

Lemma only_quiet {A} (m : M A) :
  (forall s a s' calls, m s = Ok a s' calls -> calls = []) -> only ok m.
Proof. intros Hq s a s' calls H. rewrite (Hq _ _ _ _ H). constructor. Qed.

Lemma only_call c : ok c = true -> only ok (call c).
Proof. intros Hc s a s' calls H. inversion H. now constructor. Qed.

Lemma only_via_shader c : ok c = true -> only ok (via_shader c).
Proof.
  intros Hc. unfold via_shader. apply only_bind.
  - apply only_quiet. intros s a s' calls H. now inversion H.
  - intro t. destruct (m_pShaderManager t).
    + apply only_quiet. discriminate.
    + now apply only_call.
Qed.

Lemma only_SetTransformations sc rx ry rz pos :
  (forall m, ok (setMat4Value g_ModelName m) = true) ->
  only ok (SetTransformations sc rx ry rz pos).
Proof.
  intros Hmodel. unfold SetTransformations. cbv zeta. apply only_bind.
  - apply only_quiet. intros s a s' calls H. now inversion H.
  - intro t. destruct (m_pShaderManager t); [apply only_ret|].
    apply only_via_shader, Hmodel.
Qed.

Lemma only_SetShaderMaterial tag :
  (forall name v, ok (setVec3Value name v) = true) ->
  (forall name v, ok (setFloatValue name v) = true) ->
  only ok (SetShaderMaterial tag).
Proof.
  intros Hvec Hfloat. unfold SetShaderMaterial. apply only_bind.
  - apply only_quiet. intros s a s' calls H. now inversion H.
  - intro t. destruct (_ <? _); [|apply only_ret].
    apply only_bind.
    + apply only_quiet. intros s a s' calls H. now inversion H.
    + intro material. apply only_bind.
      * apply only_quiet. intros s a s' calls H.
        destruct (FindMaterial_result_aux tag material s) as (b & found & Hrun & _).
        rewrite Hrun in H. now inversion H.
      * intros [[] found]; [|apply only_ret].
        repeat (apply only_bind; [|intros _]);
          first [apply only_via_shader, Hvec | apply only_via_shader, Hfloat].
Qed.
End Only.

(** X22. [MakeBooks] never writes the texture state of the shader: among
    its calls there is no write of the texture switch, of the sampler or of
    the UV scale, so the books are drawn in whatever texture state the
    builder before them left. *)
Theorem MakeBooks_leaves_texture_state :
  forall (s s' : State) (calls : list Call),
    MakeBooks s = Ok tt s' calls ->
    Forall (fun c => is_texture_state c = false) calls.
Proof.
  intros s s' calls Hrun.
  assert (Honly : only (fun c => negb (is_texture_state c)) MakeBooks).
  { unfold MakeBooks.
    repeat first
      [ apply only_call; reflexivity
      | apply only_SetTransformations; reflexivity
      | apply only_SetShaderMaterial; reflexivity
      | apply only_bind; [|intros _] ]. }
  apply Honly in Hrun.
  eapply Forall_impl; [|exact Hrun].
  intros c Hc. now apply negb_true_iff in Hc.
Qed.

Lemma MakeBooks_leaves_texture_state_witness :
  Forall (fun c => is_texture_state c = false)
         (match MakeBooks prepared with
          | Ok _ _ calls => calls
          | Undefined _ => []
          end).
Proof.
  apply (MakeBooks_leaves_texture_state prepared prepared
           (match MakeBooks prepared with
            | Ok _ _ calls => calls
            | Undefined _ => []
            end)).
  cbv -[glm.mul glm.translate glm.rotate glm.scale glm.radians
        IZR Rdiv Rmult Rplus Ropp Rminus Rinv].
  reflexivity.
Defined.

(** ** The object builders *)

(** *** What the registry of materials can hold *)

Lemma keeps_of_preserves {A} (m : M A) : preserves_state m -> keeps_materials m.
Proof. intros Hm s a s' calls H. apply Hm in H. now subst s'. Qed.

Lemma keeps_bind {A B} (m : M A) (k : A -> M B) :
  keeps_materials m -> (forall a, keeps_materials (k a)) ->
  keeps_materials (bind m k).
Proof.
  intros Hm Hk s b s2 calls H.
  apply bind_Ok in H as (a & s1 & c1 & c2 & H1 & H2 & _).
  apply Hm in H1. apply Hk in H2. congruence.
Qed.

Lemma keeps_gen_texture : keeps_materials gen_texture.
Proof. intros s a s' calls H. now inversion H. Qed.

Lemma keeps_store_slot i slot : keeps_materials (store_slot i slot).
Proof.
  intros s a s' calls. unfold store_slot, bind, get_this, put_this. cbv beta.
  destruct (in_bounds _ _); [|discriminate].
  intros H. now inversion H.
Qed.

Lemma keeps_for_loop body n :
  (forall i, keeps_materials (body i)) ->
  forall i, keeps_materials (for_loop n i body).
Proof.
  intros Hbody. induction n as [|n IH]; intro i; cbn [for_loop].
  - apply keeps_of_preserves, preserves_ret.
  - apply keeps_bind; [apply Hbody|intros _; apply IH].
Qed.

Lemma keeps_CreateGLTexture filename tag :
  keeps_materials (CreateGLTexture filename tag).
Proof.
  intros s b s' calls H. destruct b.
  - apply CreateGLTexture_true_registered in H as [_ Hthis]. now rewrite Hthis.
  - apply CreateGLTexture_false_keeps_manager_aux in H as [Hthis _]. now rewrite Hthis.
Qed.

Lemma keeps_DestroyGLTextures : keeps_materials DestroyGLTextures.
Proof.
  unfold DestroyGLTextures.
  apply keeps_bind; [apply keeps_of_preserves, preserves_get_this|intro t].
  apply keeps_for_loop. intro i.
  apply keeps_bind; [apply keeps_of_preserves, preserves_load_slot|intro slot].
  apply keeps_bind; [apply keeps_gen_texture|intro name].
  apply keeps_store_slot.
Qed.

Lemma keeps_LoadScenetexture : keeps_materials LoadScenetexture.
Proof.
  unfold LoadScenetexture.
  repeat (apply keeps_bind; [apply keeps_CreateGLTexture|intros _]).
  apply keeps_of_preserves, preserves_BindGLTextures.
Qed.

Lemma preserves_FindTextureID tag : preserves_state (FindTextureID tag).
Proof.
  unfold FindTextureID. preserves_step; [auto with preserves|].
  generalize 0 at 2. induction (Z.to_nat _) as [|n IH]; intro i; cbn [FindTextureID_while].
  - auto with preserves.
  - repeat preserves_step; apply IH.
Qed.

Lemma preserves_SetupSceneLights : preserves_state SetupSceneLights.
Proof. unfold SetupSceneLights. repeat preserves_step. Qed.

Lemma defined_DefineObjectMaterials s a s' calls :
  defined_materials (this s) ->
  DefineObjectMaterials s = Ok a s' calls ->
  defined_materials (this s').
Proof.
  intros Hdef H.
  destruct (proj1 DefineObjectMaterials_effect_aux s) as (s1 & Hrun & Hreg & _).
  rewrite Hrun in H. inversion H; subst s1. right.
  destruct Hdef as [Hempty|(rest & Hrest)].
  - exists []. rewrite Hreg, Hempty. now rewrite app_nil_r.
  - exists (rest ++ scene_materials). rewrite Hreg, Hrest. now rewrite app_assoc.
Qed.

Lemma defined_PrepareScene s a s' calls :
  defined_materials (this s) ->
  PrepareScene s = Ok a s' calls ->
  defined_materials (this s').
Proof.
  intros Hdef H. unfold PrepareScene in H.
  apply bind_Ok in H as (a1 & s1 & c1 & c1' & Hload & H & _).
  apply bind_Ok in H as (a2 & s2 & c2 & c2' & Hmat & H & _).
  assert (Hrest : s' = s2).
  { revert H. apply preserves_bind; [apply preserves_SetupSceneLights|intros _].
    repeat preserves_step. }
  subst s'. apply (defined_DefineObjectMaterials s1 a2 s2 c2); [|exact Hmat].
  unfold defined_materials. rewrite (keeps_LoadScenetexture _ _ _ _ Hload).
  exact Hdef.
Qed.

(** Whatever has been called on a manager, its registry of materials is
    empty or begins with the materials of the scene. *)
Lemma reachable_defined s : reachable s -> defined_materials (this s).
Proof.
  induction 1 as [p w|s w _ IH|A m s a s' calls _ IH Hmethod Hrun].
  - now left.
  - exact IH.
  - assert (Hkeeps : keeps_materials m -> defined_materials (this s')).
    { intros Hkeeps. unfold defined_materials.
      rewrite (Hkeeps _ _ _ _ Hrun). exact IH. }
    revert a Hrun Hkeeps.
    destruct Hmethod; intros result Hrun Hkeeps;
      try (apply Hkeeps, keeps_of_preserves; solve [auto with preserves]).
    + apply Hkeeps, keeps_CreateGLTexture.
    + apply Hkeeps, keeps_of_preserves, preserves_BindGLTextures.
    + apply Hkeeps, keeps_DestroyGLTextures.
    + apply Hkeeps, keeps_of_preserves, preserves_FindTextureID.
    + apply Hkeeps, keeps_LoadScenetexture.
    + exact (defined_DefineObjectMaterials s result s' calls IH Hrun).
    + apply Hkeeps, keeps_of_preserves, preserves_SetupSceneLights.
    + exact (defined_PrepareScene s result s' calls IH Hrun).
    + apply Hkeeps, keeps_of_preserves, preserves_RenderScene.
    + apply Hkeeps, keeps_of_preserves, preserves_build.
Qed.

Lemma state_after_reachable {A} (m : M A) s :
  method A m -> reachable s -> reachable (state_after m s).
Proof.
  intros Hmethod Hs. unfold state_after.
  destruct (m s) as [a s' calls|f] eqn:Hrun; [|exact Hs].
  exact (reachable_method A m s a s' calls Hs Hmethod Hrun).
Qed.

(** *** Methods that do not look at the world *)

Lemma blind_ret {A} t (a : A) : blind t (ret a).
Proof. intros w1 w2. cbn. auto. Qed.

Lemma blind_call t c : blind t (call c).
Proof. intros w1 w2. cbn. auto. Qed.

Lemma blind_undefined {A} t f : blind t (@undefined A f).
Proof. intros w1 w2. reflexivity. Qed.

Lemma blind_bind {A B} t (m : M A) (k : A -> M B) :
  blind t m -> (forall a, blind t (k a)) -> blind t (bind m k).
Proof.
  intros Hm Hk w1 w2. specialize (Hm w1 w2). unfold bind.
  destruct (m {| this := t; world := w1 |}) as [a1 s1 c1|f1],
           (m {| this := t; world := w2 |}) as [a2 s2 c2|f2];
    try contradiction; [|exact Hm].
  destruct Hm as (-> & -> & -> & ->). specialize (Hk a2 w1 w2).
  destruct (k a2 {| this := t; world := w1 |}) as [b1 s1 d1|f1],
           (k a2 {| this := t; world := w2 |}) as [b2 s2 d2|f2];
    try contradiction; [|exact Hk].
  destruct Hk as (-> & -> & -> & ->). auto.
Qed.

(** What follows [get_this] is given the manager itself. *)
Lemma blind_bind_get {B} t (k : SceneManager -> M B) :
  blind t (k t) -> blind t (bind get_this k).
Proof.
  intros Hk w1 w2. specialize (Hk w1 w2). unfold bind, get_this. cbn [this].
  destruct (k t {| this := t; world := w1 |}) as [b1 s1 d1|f1],
           (k t {| this := t; world := w2 |}) as [b2 s2 d2|f2];
    try contradiction; [|exact Hk].
  destruct Hk as (-> & -> & -> & ->). auto.
Qed.

Create HintDb blind.
#[local] Hint Resolve blind_ret blind_call blind_undefined : blind.

Ltac blind_step :=
  match goal with
  | |- blind _ (bind get_this _) => apply blind_bind_get; cbv beta
  | |- blind _ (bind _ _) => apply blind_bind; [|intro]
  | |- blind _ (match ?x with _ => _ end) => destruct x
  | |- blind _ _ => solve [auto with blind]
  end.

Lemma blind_via_shader t c : blind t (via_shader c).
Proof. unfold via_shader. repeat blind_step. Qed.

Lemma blind_load_slot t i : blind t (load_slot i).
Proof. unfold load_slot. repeat blind_step. Qed.
#[local] Hint Resolve blind_via_shader blind_load_slot : blind.

Lemma blind_FindTextureSlot t tag : blind t (FindTextureSlot tag).
Proof.
  unfold FindTextureSlot. blind_step.
  generalize 0 at 2.
  induction (Z.to_nat _) as [|n IH]; intro i; cbn [FindTextureSlot_while].
  - auto with blind.
  - repeat blind_step; apply IH.
Qed.
#[local] Hint Resolve blind_FindTextureSlot : blind.

Lemma blind_SetTransformations t sc rx ry rz pos :
  blind t (SetTransformations sc rx ry rz pos).
Proof. unfold SetTransformations. cbv zeta. repeat blind_step. Qed.

Lemma blind_SetShaderColor t r g b a : blind t (SetShaderColor r g b a).
Proof. unfold SetShaderColor. cbv zeta. repeat blind_step. Qed.

Lemma blind_SetShaderTexture t tag : blind t (SetShaderTexture tag).
Proof. unfold SetShaderTexture. repeat blind_step. Qed.

Lemma blind_SetTextureUVScale t u v : blind t (SetTextureUVScale u v).
Proof. unfold SetTextureUVScale. repeat blind_step. Qed.
#[local] Hint Resolve blind_SetTransformations blind_SetShaderColor
  blind_SetShaderTexture blind_SetTextureUVScale : blind.

(** With no material registered [SetShaderMaterial] does nothing. *)
Lemma blind_SetShaderMaterial_empty t tag :
  m_objectMaterials t = [] -> blind t (SetShaderMaterial tag).
Proof.
  intros Hempty. unfold SetShaderMaterial. blind_step.
  rewrite Hempty. cbn. auto with blind.
Qed.

(** When a registered material carries the tag, the uninitialised local is
    overwritten before it is read, so what it held does not show. *)
Lemma blind_SetShaderMaterial_found t tag before first after :
  m_objectMaterials t = before ++ first :: after ->
  (forall m, In m before -> Material.tag m <> tag) ->
  Material.tag first = tag ->
  blind t (SetShaderMaterial tag).
Proof.
  intros Hreg Hmiss Hfirst.
  assert (Hne : m_objectMaterials t <> []).
  { rewrite Hreg. intros H. apply app_eq_nil in H as [_ H]. discriminate. }
  assert (Hrun : forall w,
             SetShaderMaterial tag {| this := t; world := w |} =
               (via_shader (setVec3Value "material.ambientColor" (Material.ambientColor first)) ;;
                via_shader (setFloatValue "material.ambientStrength" (Material.ambientStrength first)) ;;
                via_shader (setVec3Value "material.diffuseColor" (Material.diffuseColor first)) ;;
                via_shader (setVec3Value "material.specularColor" (Material.specularColor first)) ;;
                via_shader (setFloatValue "material.shininess" (Material.shininess first)))
                 {| this := t; world := w |}).
  { intros w. unfold SetShaderMaterial.
    unfold bind at 1, get_this at 1. cbv beta iota. cbn [this].
    rewrite (proj1 (nonempty_size_tests _ Hne)).
    unfold bind at 1, declare_material at 1. cbv beta iota.
    unfold bind at 1. cbn [world].
    rewrite (FindMaterial_found tag {| this := t; world := w |} before first after
               (indeterminate w) Hreg Hmiss Hfirst).
    cbv beta iota. cbn [Material.ambientColor Material.ambientStrength
                        Material.diffuseColor Material.specularColor
                        Material.shininess].
    destruct (bind _ _ _); reflexivity. }
  intros w1 w2. rewrite !Hrun.
  revert w1 w2. change (blind t
    (via_shader (setVec3Value "material.ambientColor" (Material.ambientColor first)) ;;
     via_shader (setFloatValue "material.ambientStrength" (Material.ambientStrength first)) ;;
     via_shader (setVec3Value "material.diffuseColor" (Material.diffuseColor first)) ;;
     via_shader (setVec3Value "material.specularColor" (Material.specularColor first)) ;;
     via_shader (setFloatValue "material.shininess" (Material.shininess first)))).
  repeat blind_step.
Qed.

(** On a manager whose registry is empty or begins with the scene's
    materials, [SetShaderMaterial] for one of their tags does not look at
    the world. *)
Lemma blind_SetShaderMaterial t tag :
  defined_materials t -> In tag scene_tags -> blind t (SetShaderMaterial tag).
Proof.
  intros [Hempty|(rest & Hreg)] Hin; [now apply blind_SetShaderMaterial_empty|].
  unfold scene_materials in Hreg.
  cbn in Hin.
  destruct Hin as [<-|[<-|[<-|[<-|[<-|[<-|[<-|[<-|[]]]]]]]]].
  - apply (blind_SetShaderMaterial_found t _ [] woodMat
             ([plasticMat; rubberMat; glassMat; brickMat; paperMat;
               topBookCoverMat; bottomBookCoverMat] ++ rest));
      [exact Hreg|no_tag_before|reflexivity].
  - apply (blind_SetShaderMaterial_found t _ [woodMat] plasticMat
             ([rubberMat; glassMat; brickMat; paperMat;
               topBookCoverMat; bottomBookCoverMat] ++ rest));
      [exact Hreg|no_tag_before|reflexivity].
  - apply (blind_SetShaderMaterial_found t _ [woodMat; plasticMat] rubberMat
             ([glassMat; brickMat; paperMat;
               topBookCoverMat; bottomBookCoverMat] ++ rest));
      [exact Hreg|no_tag_before|reflexivity].
  - apply (blind_SetShaderMaterial_found t _ [woodMat; plasticMat; rubberMat] glassMat
             ([brickMat; paperMat; topBookCoverMat; bottomBookCoverMat] ++ rest));
      [exact Hreg|no_tag_before|reflexivity].
  - apply (blind_SetShaderMaterial_found t _
             [woodMat; plasticMat; rubberMat; glassMat] brickMat
             ([paperMat; topBookCoverMat; bottomBookCoverMat] ++ rest));
      [exact Hreg|no_tag_before|reflexivity].
  - apply (blind_SetShaderMaterial_found t _
             [woodMat; plasticMat; rubberMat; glassMat; brickMat] paperMat
             ([topBookCoverMat; bottomBookCoverMat] ++ rest));
      [exact Hreg|no_tag_before|reflexivity].
  - apply (blind_SetShaderMaterial_found t _
             [woodMat; plasticMat; rubberMat; glassMat; brickMat; paperMat]
             topBookCoverMat ([bottomBookCoverMat] ++ rest));
      [exact Hreg|no_tag_before|reflexivity].
  - apply (blind_SetShaderMaterial_found t _
             [woodMat; plasticMat; rubberMat; glassMat; brickMat; paperMat;
              topBookCoverMat] bottomBookCoverMat rest);
      [exact Hreg|no_tag_before|reflexivity].
Qed.

Ltac scene_tag := cbn; repeat first [left; reflexivity | right].

(** On such a manager no object builder looks at the world. *)
Lemma blind_build t b : defined_materials t -> blind t (build b).
Proof.
  intros Hdef.
  pose proof (fun tag => blind_SetShaderMaterial t tag Hdef) as Hmaterial.
  destruct b; cbv [build MakeDesk MakeBackWall MakeDeskStand MakeMug MakeBooks
                   MakeLamp MakePenHolder];
    repeat first [blind_step | apply Hmaterial; scene_tag].
Qed.

(** The content of uninitialised storage does reach the shader when the
    registry holds other materials only; no reachable manager is like that. *)
Lemma SetShaderMaterial_not_blind :
  ~ blind (this wood_only) (SetShaderMaterial "brick").
Proof.
  intros Hblind.
  specialize (Hblind sample_world
                {| stbi_load := stbi_load sample_world;
                   gl_fresh := gl_fresh sample_world;
                   indeterminate := woodMat |}).
  cbv -[IZR Rdiv Rmult Rplus Ropp Rminus Rinv] in Hblind.
  destruct Hblind as (_ & Hcalls & _).
  injection Hcalls as _ _ _ _ Hshininess.
  revert Hshininess. unfold float in *. lra.
Qed.

(** C9. Take any of the seven object builders and any state a manager can
    reach through its member functions.  If the builder returns, it has left
    the manager and the world as they were, and run again on that manager
    in any world at all (in particular right away, in the world as it is,
    and whatever uninitialised storage then holds) it returns again and
    makes the very same sequence of calls: the same model matrices, texture
    slots (or -1), material values and draws, in the same order. *)
Theorem builders_deterministic :
  forall (b : Builder) (s s1 : State) (calls1 : list Call),
    reachable s ->
    build b s = Ok tt s1 calls1 ->
    s1 = s
    /\ forall w : World,
         build b {| this := this s1; world := w |} =
           Ok tt {| this := this s1; world := w |} calls1.
Proof.
  intros b s s1 calls1 Hreach Hrun.
  assert (Hsame : s1 = s) by (apply (preserves_build b s tt s1 calls1 Hrun)).
  subst s1. split; [reflexivity|]. intros w.
  pose proof (blind_build (this s) b (reachable_defined s Hreach) (world s) w) as Hblind.
  destruct s as [t w0]. cbn [this world] in *.
  rewrite Hrun in Hblind.
  destruct (build b {| this := t; world := w |}) as [[] s2 calls2|f];
    [|contradiction].
  destruct Hblind as (_ & <- & _ & ->). reflexivity.
Qed.

Lemma builders_deterministic_witness :
  build Desk prepared = Ok tt prepared desk_calls
  /\ prepared = prepared
  /\ forall w : World,
       build Desk {| this := this prepared; world := w |} =
         Ok tt {| this := this prepared; world := w |} desk_calls.
Proof.
  assert (Hrun : build Desk prepared = Ok tt prepared desk_calls) by reflexivity.
  split; [exact Hrun|].
  apply (builders_deterministic Desk prepared prepared desk_calls); [|exact Hrun].
  apply (state_after_reachable PrepareScene (constructed (Object 1)));
    [apply method_PrepareScene|apply reachable_constructed].
Defined.
